(** * Spoolman print jobs: a shallow embedding of the data-access layer
    (spoolman/database/print_job.py) and of the REST glue
    (spoolman/api/v1/print_job.py), with the properties of its specification.

    Python objects are attribute dictionaries ([gmap string Value]), ORM
    instances live in a heap and are tracked by a session, the database is a
    pair of tables, and every operation runs in a state-and-exception monad
    over a [World]. Floats are IEEE 754 binary64 ([PrimFloat]). *)

From Stdlib Require Import ZArith PrimFloat.
From stdpp Require Import gmap strings list fin_maps pretty sorting.

Open Scope Z_scope.

(* Decimal literals such as 3.1 denote the nearest binary64 value, as in Python. *)
Set Warnings "-inexact-float".
Set Default Proof Using "Type".

(** ** Exceptions and results *)

Inductive Exn :=
  | ItemNotFoundError (msg : string)
  | OverflowError
  | AttributeError (name : string)
  | OtherException (msg : string).

Inductive Result (A : Type) :=
  | Ok (a : A)
  | Raise (e : Exn).
Arguments Ok {A} a.
Arguments Raise {A} e.

(** ** datetime

    A [datetime] is its wall-clock reading in microseconds since
    0001-01-01T00:00:00 together with an optional UTC offset (also in
    microseconds); [tzinfo = None] is a naive datetime. *)

Record datetime := mk_datetime { wall : Z; tzinfo : option Z }.

(** One past [datetime.max] (9999-12-31T23:59:59.999999). *)
Definition MAX_WALL : Z := 3652059 * 86400 * 1000000.

Definition representable (w : Z) : bool := (0 <=? w) && (w <? MAX_WALL).

(** [dt.replace(tzinfo=None)] *)
Definition replace_tzinfo_None (dt : datetime) : datetime :=
  {| wall := wall dt; tzinfo := None |}.

(** [dt.replace(microsecond=0)] *)
Definition replace_microsecond_0 (dt : datetime) : datetime :=
  {| wall := wall dt - wall dt mod 1000000; tzinfo := tzinfo dt |}.

(** [dt.astimezone(tz=timezone.utc)]: an aware datetime is shifted by its own
    offset, a naive one is read as system local time ([local_utcoffset]);
    the subtraction raises [OverflowError] outside the representable range. *)
Definition astimezone_utc (local_utcoffset : Z → Z) (dt : datetime) : Result datetime :=
  let myoffset :=
    match tzinfo dt with
    | Some off => off
    | None => local_utcoffset (wall dt)
    end in
  let utc := wall dt - myoffset in
  if representable utc then Ok {| wall := utc; tzinfo := Some 0 |}
  else Raise OverflowError.

(** ** Values, objects and rows *)

Inductive Value :=
  | VNone
  | VInt (z : Z)
  | VFloat (f : float)
  | VStr (s : string)
  | VDateTime (d : datetime).

(** An object is its attribute dictionary. *)
Abbreviation Obj := (gmap string Value).

Definition of_option {A} (inj : A → Value) (o : option A) : Value :=
  match o with
  | Some a => inj a
  | None => VNone
  end.

(** [isinstance(v, datetime)] *)
Definition isinstance_datetime (v : Value) : bool :=
  match v with
  | VDateTime _ => true
  | _ => false
  end.

(** ** Spools and filaments (spoolman.database.models, columns used here) *)

Record Filament := {
  filament_price : option float;
  filament_weight : option float }.

Record Spool := {
  spool_price : option float;
  spool_initial_weight : option float;
  spool_filament : Filament }.

(** ** Change events and topics *)

Inductive EventType := ADDED | UPDATED | DELETED.

Record PrintJobEvent := {
  ev_type : EventType;
  ev_resource : string;
  ev_date : datetime;
  ev_payload : Obj }.

Abbreviation Topic := (list string).

(** ** The world: database tables, session, heap, websocket manager, trace *)

(** State of an ORM instance inside the session: [Pending] after [db.add],
    [Persistent key] once it mirrors the row with primary key [key],
    [Deleted key] after [db.delete] and before the flush. *)
Inductive InstanceState :=
  | Pending
  | Persistent (key : Z)
  | Deleted (key : Z).

(** Observable effects, oldest first. *)
Inductive Effect :=
  | Commit
  | Send (topic : Topic) (ev : PrintJobEvent)
  | LogException (msg : string) (e : Exn).

Record World := mk_World {
  spool_table : gmap Z Spool;
  print_job_table : gmap Z Obj;
  heap : list Obj;
  session : list (nat * InstanceState);
  clock : Z;
  ws_connections : list (Topic * nat);
  ws_received : list (nat * PrintJobEvent);
  trace : list Effect }.

Definition set_print_job_table (t : gmap Z Obj) (w : World) : World :=
  mk_World (spool_table w) t (heap w) (session w) (clock w)
           (ws_connections w) (ws_received w) (trace w).
Definition set_heap (h : list Obj) (w : World) : World :=
  mk_World (spool_table w) (print_job_table w) h (session w) (clock w)
           (ws_connections w) (ws_received w) (trace w).
Definition set_session (s : list (nat * InstanceState)) (w : World) : World :=
  mk_World (spool_table w) (print_job_table w) (heap w) s (clock w)
           (ws_connections w) (ws_received w) (trace w).
Definition set_ws_connections (c : list (Topic * nat)) (w : World) : World :=
  mk_World (spool_table w) (print_job_table w) (heap w) (session w) (clock w)
           c (ws_received w) (trace w).
Definition set_ws_received (r : list (nat * PrintJobEvent)) (w : World) : World :=
  mk_World (spool_table w) (print_job_table w) (heap w) (session w) (clock w)
           (ws_connections w) r (trace w).
Definition emit (e : Effect) (w : World) : World :=
  mk_World (spool_table w) (print_job_table w) (heap w) (session w) (clock w)
           (ws_connections w) (ws_received w) (trace w ++ [e]).

(** What the embedded code takes from its surroundings: the system's local
    UTC offset (used by [astimezone] on naive datetimes), the database's
    [ILIKE] matching, the text of non-integer values under [str], and whether
    a websocket send raises. *)
Record Env := {
  local_utcoffset : Z → Z;
  ilike : string → string → bool;
  repr_other : Value → string;
  send_fault : Topic → PrintJobEvent → option Exn }.

(** ** The state-and-exception monad *)

Definition M (A : Type) : Type := World → Result A * World.

Definition ret {A} (a : A) : M A := λ w, (Ok a, w).
Definition raise {A} (e : Exn) : M A := λ w, (Raise e, w).
Definition bind {A B} (m : M A) (k : A → M B) : M B :=
  λ w, match m w with
       | (Ok a, w') => k a w'
       | (Raise e, w') => (Raise e, w')
       end.
(** [try: m except Exception as e: h e] *)
Definition try_except {A} (m : M A) (h : Exn → M A) : M A :=
  λ w, match m w with
       | (Ok a, w') => (Ok a, w')
       | (Raise e, w') => h e w'
       end.
Definition lift {A} (r : Result A) : M A := λ w, (r, w).
Definition modify (f : World → World) : M unit := λ w, (Ok tt, f w).
Definition gets {A} (f : World → A) : M A := λ w, (Ok (f w), w).

Declare Scope m_scope.
Delimit Scope m_scope with M.
Notation "'do' x <- m ; k" := (bind m (λ x, k))
  (at level 10, x name, m at level 100, k at level 200) : m_scope.
Notation "m ;; k" := (bind m (λ _, k))
  (at level 100, k at level 200, right associativity) : m_scope.
Open Scope m_scope.

Fixpoint for_each {A} (l : list A) (body : A → M unit) : M unit :=
  match l with
  | [] => ret tt
  | x :: l' => body x ;; for_each l' body
  end.

(** ** ORM instances and the session (SQLAlchemy's unit of work) *)

Global Instance InstanceState_eq_dec : EqDecision InstanceState.
Proof. solve_decision. Defined.

(** [models.PrintJob(...)]: a new transient instance. *)
Definition new_instance (o : Obj) : M nat :=
  λ w, (Ok (length (heap w)), set_heap (heap w ++ [o]) w).

Definition getattr (r : nat) (k : string) : M Value :=
  λ w, match heap w !! r ≫= (λ o : Obj, o !! k) with
       | Some v => (Ok v, w)
       | None => (Raise (AttributeError k), w)
       end.

Definition setattr (r : nat) (k : string) (v : Value) : M unit :=
  modify (λ w, set_heap (alter (λ o : Obj, <[k:=v]> o) r (heap w)) w).

(** [db.add(instance)] *)
Definition db_add (r : nat) : M unit :=
  modify (λ w, set_session (session w ++ [(r, Pending)]) w).

(** [db.get(models.PrintJob, id)]: the instance of the identity map if the
    row is already loaded, else a fresh instance of the row, else [None]. *)
Definition db_get (id : Z) : M (option nat) :=
  λ w, match list_find (λ e : nat * InstanceState, e.2 = Persistent id) (session w) with
       | Some (_, (r, _)) => (Ok (Some r), w)
       | None =>
         match print_job_table w !! id with
         | Some row =>
           let r := length (heap w) in
           (Ok (Some r),
            set_session (session w ++ [(r, Persistent id)])
              (set_heap (heap w ++ [<["id" := VInt id]> row]) w))
         | None => (Ok None, w)
         end
       end.

(** [db.delete(instance)]: marks a persistent instance for deletion. *)
Definition db_delete (r : nat) : M unit :=
  modify (λ w, set_session
    (map (λ e : nat * InstanceState,
            match e with
            | (r', Persistent key) => if decide (r' = r) then (r', Deleted key) else e
            | _ => e
            end) (session w)) w).

(** The next value of the autoincrement primary key. *)
Definition fresh_id (t : gmap Z Obj) : Z :=
  1 + map_fold (λ k _ acc, Z.max k acc) 0 t.

Definition primary_key (o : Obj) (default : Z) : Z :=
  match o !! "id" with
  | Some (VInt i) => i
  | _ => default
  end.

(** Flushing one session entry: INSERT for a pending instance (the key is
    written back to the instance), UPDATE for a persistent one, DELETE for
    one marked deleted. *)
Definition flush_entry
    (acc : gmap Z Obj * list Obj * list (nat * InstanceState))
    (e : nat * InstanceState) : gmap Z Obj * list Obj * list (nat * InstanceState) :=
  let '(t, h, s) := acc in
  let '(r, st) := e in
  match st, h !! r with
  | Pending, Some o =>
    let id := primary_key o (fresh_id t) in
    let o' := <["id" := VInt id]> o in
    (<[id := o']> t, <[r := o']> h, s ++ [(r, Persistent id)])
  | Persistent key, Some o =>
    let pk := primary_key o key in
    (<[pk := o]> (delete key t), h, s ++ [(r, Persistent pk)])
  | Deleted key, _ => (delete key t, h, s)
  | _, None => (t, h, s)
  end.

(** [await db.commit()]. The constraints of the table (NOT NULL columns,
    the foreign key to [spool], the primary key) are the database's to
    enforce and are not modelled: the flush below always goes through, where
    the database may answer a row it refuses with an [IntegrityError]. What
    is said of an [update] is therefore said of the updates that return. *)
Definition db_commit : M unit :=
  λ w, let '(t, h, s) := foldl flush_entry (print_job_table w, heap w, []) (session w) in
       (Ok tt, emit Commit (set_session s (set_heap h (set_print_job_table t w)))).

(** [datetime.utcnow()] *)
Definition utcnow : M datetime :=
  gets (λ w, {| wall := clock w; tzinfo := None |}).

(** [str(v)] *)
Definition str (env : Env) (v : Value) : string :=
  match v with
  | VInt z => pretty z
  | VNone => "None"
  | VStr s => s
  | _ => repr_other env v
  end.

(** Modelled from the spec: [PrintJob.from_db] (spoolman.api.v1.models) is
    not among the sources; the spec calls its result the "payload snapshot of
    the entity at time of change", so it is the instance's attributes as
    they are when it is called. *)
Definition from_db (r : nat) : M Obj :=
  λ w, match heap w !! r with
       | Some o => (Ok o, w)
       | None => (Raise (AttributeError "from_db"), w)
       end.

(** ** The change notifier *)

(** Modelled from the spec: [websocket_manager] (spoolman.ws) is not among
    the sources. [connect] registers a connection under a topic, [disconnect]
    removes it (removing an absent connection is a no-op), and [send]
    delivers the event "to every connection currently subscribed to that
    exact topic". Whether a call of [send] raises is the environment's
    [send_fault]; a call that raises is taken to deliver to nobody, and
    which connections a failing send had reached is not modelled. *)
Definition ws_connect (topic : Topic) (c : nat) : M unit :=
  modify (λ w, set_ws_connections (ws_connections w ++ [(topic, c)]) w).

Definition ws_disconnect (topic : Topic) (c : nat) : M unit :=
  modify (λ w, set_ws_connections
    (filter (λ tc : Topic * nat, tc ≠ (topic, c)) (ws_connections w)) w).

Definition subscribers (topic : Topic) (w : World) : list nat :=
  (filter (λ tc : Topic * nat, tc.1 = topic) (ws_connections w)).*2.

Definition ws_send (env : Env) (topic : Topic) (ev : PrintJobEvent) : M unit :=
  λ w, let w1 := emit (Send topic ev) w in
       match send_fault env topic ev with
       | Some e => (Raise e, w1)
       | None =>
         (Ok tt, set_ws_received
                   (ws_received w1 ++ map (λ c, (c, ev)) (subscribers topic w1)) w1)
       end.

(** The events a connection has received, oldest first. *)
Definition received (c : nat) (w : World) : list PrintJobEvent :=
  (filter (λ ce : nat * PrintJobEvent, ce.1 = c) (ws_received w)).*2.

Definition logger_exception (msg : string) (e : Exn) : M unit :=
  modify (emit (LogException msg e)).

(** ** spoolman.database.models *)

Module models.

(** [models.PrintJob(spool=..., registered=..., ...)]: the attributes of a new
    print job; the relationship [spool] is kept as its foreign key
    [spool_id], and [id] is absent until the row is inserted. *)
Definition PrintJob
    (spool_id : Z) (registered : datetime) (name : string) (weight_used : float)
    (started_at completed_at : option datetime)
    (cost revenue : option float)
    (notes external_reference : option string) : Obj :=
  list_to_map [
    ("spool_id", VInt spool_id);
    ("registered", VDateTime registered);
    ("name", VStr name);
    ("weight_used", VFloat weight_used);
    ("started_at", of_option VDateTime started_at);
    ("completed_at", of_option VDateTime completed_at);
    ("cost", of_option VFloat cost);
    ("revenue", of_option VFloat revenue);
    ("notes", of_option VStr notes);
    ("external_reference", of_option VStr external_reference)].

End models.

(** ** spoolman.database.spool *)

Module spool.

(** Modelled from the spec: [spool.get_by_id] (spoolman/database/spool.py) is
    not among the sources. The spec gives the store's contract as
    "fails NotFound if referenced Spool missing"; like [get_by_id] for print
    jobs it returns the row or raises [ItemNotFoundError]. *)
Definition get_by_id (spool_id : Z) : M Spool :=
  λ w, match spool_table w !! spool_id with
       | Some s => (Ok s, w)
       | None =>
         (Raise (ItemNotFoundError ("No spool with ID " +:+ pretty spool_id +:+ " found.")), w)
       end.

End spool.

(** ** spoolman.database.print_job *)

Module database.

Definition utc_timezone_naive (env : Env) (dt : datetime) : Result datetime :=
  match astimezone_utc (local_utcoffset env) dt with
  | Ok utc => Ok (replace_tzinfo_None utc)
  | Raise e => Raise e
  end.

(** [utc_timezone_naive] under [if x is not None]. *)
Definition normalized (env : Env) (x : option datetime) : Result (option datetime) :=
  match x with
  | Some dt =>
    match utc_timezone_naive env dt with
    | Ok dt' => Ok (Some dt')
    | Raise e => Raise e
    end
  | None => Ok None
  end.

Definition print_job_changed (env : Env) (print_job : nat) (typ : EventType) : M unit :=
  try_except
    (do id <- getattr print_job "id";
     do now <- utcnow;
     do payload <- from_db print_job;
     ws_send env ["print_job"; str env id]
       {| ev_type := typ; ev_resource := "print_job"; ev_date := now; ev_payload := payload |})
    (λ e, logger_exception "Failed to send websocket message" e).

Definition create (env : Env)
    (spool_id : Z) (name : string) (weight_used : float)
    (started_at completed_at : option datetime)
    (cost revenue : option float)
    (notes external_reference : option string) : M nat :=
  do spool_item <- spool.get_by_id spool_id;
  do started_at <- lift (normalized env started_at);
  do completed_at <- lift (normalized env completed_at);
  let cost :=
    match cost with
    | None =>
      if (0 <? weight_used)%float then
        let filament_price_per_gram :=
          match filament_price (spool_filament spool_item),
                filament_weight (spool_filament spool_item) with
          | Some p, Some fw => if (0 <? fw)%float then Some (p / fw)%float else None
          | _, _ => None
          end in
        let price_per_gram :=
          match spool_price spool_item, spool_initial_weight spool_item with
          | Some p, Some iw =>
            if (0 <? iw)%float then Some (p / iw)%float else filament_price_per_gram
          | _, _ => filament_price_per_gram
          end in
        match price_per_gram with
        | Some g => Some (weight_used * g)%float
        | None => None
        end
      else None
    | Some c => Some c
    end in
  do now <- utcnow;
  do print_job <- new_instance
    (models.PrintJob spool_id (replace_microsecond_0 now) name weight_used
       started_at completed_at cost revenue notes external_reference);
  db_add print_job ;;
  db_commit ;;
  print_job_changed env print_job ADDED ;;
  ret print_job.

Definition get_by_id (print_job_id : Z) : M nat :=
  do print_job <- db_get print_job_id;
  match print_job with
  | None =>
    raise (ItemNotFoundError ("No print job with ID " +:+ pretty print_job_id +:+ " found."))
  | Some r => ret r
  end.

(** The column [registered] of a row, as the key of [ORDER BY]. *)
Definition registered_of (row : Obj) : Z :=
  match row !! "registered" with
  | Some (VDateTime d) => wall d
  | _ => 0
  end.

(** [a] may come before [b] under [ORDER BY registered DESC]. *)
Definition newest_first (a b : Obj) : Prop := registered_of b ≤ registered_of a.

Global Instance newest_first_dec : RelDecision newest_first.
Proof. intros a b. unfold newest_first. apply _. Defined.

(** [OFFSET] and [LIMIT] as SQLite, the default backend, evaluates them: a
    negative offset counts as zero and a negative limit puts no upper bound
    on the number of rows. *)
Definition sql_offset (offset : Z) (rows : list Obj) : list Obj :=
  drop (Z.to_nat offset) rows.
Definition sql_limit (limit : Z) (rows : list Obj) : list Obj :=
  if limit <? 0 then rows else take (Z.to_nat limit) rows.

(** The three conditions of the statement: the inner join with [spool], and
    the two optional [WHERE] clauses. *)
Definition joins_spool (w : World) (row : Obj) : bool :=
  match row !! "spool_id" with
  | Some (VInt s) => bool_decide (is_Some (spool_table w !! s))
  | _ => false
  end.
Definition spool_id_is (s : Z) (row : Obj) : bool :=
  match row !! "spool_id" with
  | Some (VInt s') => s' =? s
  | _ => false
  end.
Definition name_ilike (env : Env) (n : string) (row : Obj) : bool :=
  match row !! "name" with
  | Some (VStr x) => ilike env x ("%" +:+ n +:+ "%")
  | _ => false
  end.

(** The rows are returned as values; [rows.unique()] removes nothing since
    every print job joins exactly one spool. [ORDER BY] is a stable sort of
    the rows in key order; among rows with the same [registered] the
    database may return any order, and a different one on the next query. *)
Definition find (env : Env)
    (spool_id : option Z) (name : option string)
    (limit : option Z) (offset : Z) : M (list Obj * Z) :=
  λ w,
  let stmt := List.filter (joins_spool w) (map_to_list (print_job_table w)).*2 in
  let stmt :=
    match spool_id with
    | Some s => List.filter (spool_id_is s) stmt
    | None => stmt
    end in
  let stmt :=
    match name with
    | Some n => List.filter (name_ilike env n) stmt
    | None => stmt
    end in
  let stmt := merge_sort newest_first stmt in
  let total_count := None in
  let '(total_count, stmt) :=
    match limit with
    | Some l => (Some (Z.of_nat (length stmt)), sql_limit l (sql_offset offset stmt))
    | None => (total_count, stmt)
    end in
  let result := stmt in
  let total_count :=
    match total_count with
    | None => Z.of_nat (length result)
    | Some c => c
    end in
  (Ok (result, total_count), w).

Definition update (env : Env) (print_job_id : Z) (data : gmap string Value) : M nat :=
  do print_job <- get_by_id print_job_id;
  for_each (map_to_list data) (λ kv,
    let '(k, v) := kv in
    match v with
    | VDateTime dt =>
      do v' <- lift (utc_timezone_naive env dt);
      setattr print_job k (VDateTime v')
    | _ => setattr print_job k v
    end) ;;
  db_commit ;;
  print_job_changed env print_job UPDATED ;;
  ret print_job.

Definition delete (env : Env) (print_job_id : Z) : M unit :=
  do print_job <- get_by_id print_job_id;
  print_job_changed env print_job DELETED ;;
  db_delete print_job ;;
  db_commit.

End database.

(** ** spoolman.api.v1.print_job *)

Module api.

(** The request body of [POST /print-job], after validation. *)
Module PrintJobParameters.
Record t := {
  spool_id : Z;
  name : string;
  weight_used : float;
  started_at : option datetime;
  completed_at : option datetime;
  cost : option float;
  revenue : option float;
  notes : option string;
  external_reference : option string }.

(** The constraints of the fields ([max_length], [ge=0]); a request whose
    body fails them is rejected before the endpoint runs. *)
Definition valid (body : t) : bool :=
  (String.length (name body) <=? 128)%nat
  && (0 <=? weight_used body)%float
  && from_option (λ c, (0 <=? c)%float) true (cost body)
  && from_option (λ c, (0 <=? c)%float) true (revenue body)
  && from_option (λ n, (String.length n <=? 1024)%nat) true (notes body)
  && from_option (λ x, (String.length x <=? 256)%nat) true (external_reference body).
End PrintJobParameters.

(** The request body of [PATCH /print-job/{id}], after validation: every
    field defaults to [None], and [model_fields_set] names the fields the
    request supplied. *)
Module PrintJobUpdateParameters.
Record t := {
  spool_id : option Z;
  name : option string;
  weight_used : option float;
  started_at : option datetime;
  completed_at : option datetime;
  cost : option float;
  revenue : option float;
  notes : option string;
  external_reference : option string;
  model_fields_set : gset string }.

Definition model_dump (body : t) : gmap string Value :=
  list_to_map [
    ("spool_id", of_option VInt (spool_id body));
    ("name", of_option VStr (name body));
    ("weight_used", of_option VFloat (weight_used body));
    ("started_at", of_option VDateTime (started_at body));
    ("completed_at", of_option VDateTime (completed_at body));
    ("cost", of_option VFloat (cost body));
    ("revenue", of_option VFloat (revenue body));
    ("notes", of_option VStr (notes body));
    ("external_reference", of_option VStr (external_reference body))].

(** [body.model_dump(exclude_unset=True)] *)
Definition model_dump_exclude_unset (body : t) : gmap string Value :=
  filter (λ kv : string * Value, kv.1 ∈ model_fields_set body) (model_dump body).

(** The constraints of the fields ([max_length], [ge=0]). *)
Definition valid (body : t) : bool :=
  from_option (λ n, (String.length n <=? 128)%nat) true (name body)
  && from_option (λ x, (0 <=? x)%float) true (weight_used body)
  && from_option (λ c, (0 <=? c)%float) true (cost body)
  && from_option (λ c, (0 <=? c)%float) true (revenue body)
  && from_option (λ n, (String.length n <=? 1024)%nat) true (notes body)
  && from_option (λ x, (String.length x <=? 256)%nat) true (external_reference body).
End PrintJobUpdateParameters.

(** The registration done by the websocket endpoints [WS /print-job] and
    [WS /print-job/{id}] (their keep-alive loops are not part of the model). *)
Definition notify_any (env : Env) (websocket : nat) : M unit :=
  ws_connect ["print_job"] websocket.

Definition notify (env : Env) (websocket : nat) (print_job_id : Z) : M unit :=
  ws_connect ["print_job"; str env (VInt print_job_id)] websocket.

Definition create (env : Env) (body : PrintJobParameters.t) : M Obj :=
  do db_item <- database.create env
    (PrintJobParameters.spool_id body)
    (PrintJobParameters.name body)
    (PrintJobParameters.weight_used body)
    (PrintJobParameters.started_at body)
    (PrintJobParameters.completed_at body)
    (PrintJobParameters.cost body)
    (PrintJobParameters.revenue body)
    (PrintJobParameters.notes body)
    (PrintJobParameters.external_reference body);
  from_db db_item.

Definition update (env : Env) (print_job_id : Z) (body : PrintJobUpdateParameters.t) : M Obj :=
  let patch_data := PrintJobUpdateParameters.model_dump_exclude_unset body in
  do db_item <- database.update env print_job_id patch_data;
  from_db db_item.

Definition delete (env : Env) (print_job_id : Z) : M string :=
  database.delete env print_job_id ;;
  ret "Success!"%string.

Definition get (print_job_id : Z) : M Obj :=
  do db_item <- database.get_by_id print_job_id;
  from_db db_item.

(** [JSONResponse(content=..., headers=...)] *)
Record JSONResponse := {
  content : list Obj;
  headers : list (string * string) }.

Global Instance is_VNone_dec (v : Value) : Decision (v = VNone).
Proof. destruct v; (by left) || (by right). Defined.

(** [jsonable_encoder(..., exclude_none=True)] on one record: the attributes
    that are [None] are left out. *)
Definition exclude_none (o : Obj) : Obj :=
  filter (λ kv : string * Value, kv.2 ≠ VNone) o.

Definition find (env : Env)
    (spool_id : option Z) (name : option string)
    (limit : option Z) (offset : Z) : M JSONResponse :=
  do res <- database.find env spool_id name limit offset;
  let '(db_items, total_count) := res in
  ret {| content := exclude_none <$> db_items;
         headers := [("x-total-count"%string, str env (VInt total_count))] |}.

End api.

(** ** migrations/versions/2026_02_15_1529-add_print_job_table.py

    The schema is the set of tables and of indexes, by name. The operations
    of [alembic.op] fail, as the database does, when the object to create
    exists already, when the object to drop does not, or when an index names
    a column its table lacks; a failed migration leaves no schema behind (it
    runs in one transaction). *)

Module migration.

Inductive ColumnType :=
  | Integer
  | DateTime
  | Float
  | String (length : Z).

Record Column := {
  col_name : string;
  col_type : ColumnType;
  nullable : bool }.

Record ForeignKeyConstraint := {
  fk_columns : list string;
  fk_refcolumns : list string;
  fk_ondelete : string }.

Record Table := {
  columns : list Column;
  foreign_keys : list ForeignKeyConstraint;
  primary_key_constraint : list string }.

Record Index := {
  ix_table : string;
  ix_columns : list string;
  ix_unique : bool }.

Record Schema := {
  tables : gmap string Table;
  indexes : gmap string Index }.

Definition create_table (name : string) (t : Table) (s : Schema) : Result Schema :=
  match tables s !! name with
  | Some _ => Raise (OtherException ("table " +:+ name +:+ " already exists"))
  | None => Ok {| tables := <[name := t]> (tables s); indexes := indexes s |}
  end.

Definition has_column (t : Table) (c : string) : bool :=
  bool_decide (c ∈ col_name <$> columns t).

Definition create_index (name table_name : string) (cols : list string) (unique : bool)
    (s : Schema) : Result Schema :=
  match indexes s !! name, tables s !! table_name with
  | Some _, _ => Raise (OtherException ("index " +:+ name +:+ " already exists"))
  | None, None => Raise (OtherException ("no such table: " +:+ table_name))
  | None, Some t =>
    if forallb (has_column t) cols then
      Ok {| tables := tables s;
            indexes := <[name := {| ix_table := table_name; ix_columns := cols;
                                    ix_unique := unique |}]> (indexes s) |}
    else Raise (OtherException ("no such column in " +:+ table_name))
  end.

Definition drop_index (name table_name : string) (s : Schema) : Result Schema :=
  match indexes s !! name with
  | Some _ => Ok {| tables := tables s; indexes := delete name (indexes s) |}
  | None => Raise (OtherException ("no such index: " +:+ name))
  end.

Definition drop_table (name : string) (s : Schema) : Result Schema :=
  match tables s !! name with
  | Some _ => Ok {| tables := delete name (tables s); indexes := indexes s |}
  | None => Raise (OtherException ("no such table: " +:+ name))
  end.

(** [op.f(name)]: the name is final, no naming convention is applied. *)
Definition f (name : string) : string := name.

Definition and_then (r : Result Schema) (k : Schema → Result Schema) : Result Schema :=
  match r with
  | Ok s => k s
  | Raise e => Raise e
  end.

(** The table of [upgrade]. *)
Definition print_job : Table :=
  {| columns := [
       {| col_name := "id"; col_type := Integer; nullable := false |};
       {| col_name := "registered"; col_type := DateTime; nullable := false |};
       {| col_name := "spool_id"; col_type := Integer; nullable := false |};
       {| col_name := "name"; col_type := String 128; nullable := false |};
       {| col_name := "weight_used"; col_type := Float; nullable := false |};
       {| col_name := "started_at"; col_type := DateTime; nullable := true |};
       {| col_name := "completed_at"; col_type := DateTime; nullable := true |};
       {| col_name := "cost"; col_type := Float; nullable := true |};
       {| col_name := "revenue"; col_type := Float; nullable := true |};
       {| col_name := "notes"; col_type := String 1024; nullable := true |};
       {| col_name := "external_reference"; col_type := String 256; nullable := true |} ];
     foreign_keys := [
       {| fk_columns := ["spool_id"]; fk_refcolumns := ["spool.id"];
          fk_ondelete := "CASCADE" |} ];
     primary_key_constraint := ["id"] |}.

Definition upgrade (s : Schema) : Result Schema :=
  and_then (create_table "print_job" print_job s) (λ s,
  and_then (create_index (f "ix_print_job_id") "print_job" ["id"] false s) (λ s,
  create_index (f "ix_print_job_spool_id") "print_job" ["spool_id"] false s)).

Definition downgrade (s : Schema) : Result Schema :=
  and_then (drop_index (f "ix_print_job_spool_id") "print_job" s) (λ s,
  and_then (drop_index (f "ix_print_job_id") "print_job" s) (λ s,
  drop_table "print_job" s)).

(** A value may be stored in a column: [None] only where the column is
    nullable, otherwise a value of the column's type (the length of a
    string is not the table's to check on every backend and is left out). *)
Definition fits (c : Column) (v : Value) : Prop :=
  match v, col_type c with
  | VNone, _ => nullable c = true
  | VInt _, Integer => True
  | VDateTime d, DateTime => tzinfo d = None
  | VFloat _, Float => True
  | VStr _, String _ => True
  | _, _ => False
  end.

(** The declared length of a string column bounds the text stored in it. *)
Definition within_length (c : Column) (v : Value) : Prop :=
  match v, col_type c with
  | VStr x, String n => Z.of_nat (String.length x) ≤ n
  | _, _ => True
  end.

End migration.

(** ** The worlds the operations lead to

    Named pieces of the code above and the worlds its steps produce, used to
    state what a whole operation does. *)

(** The event built by [print_job_changed]. *)
Definition change_event (typ : EventType) (o : Obj) (w : World) : PrintJobEvent :=
  {| ev_type := typ; ev_resource := "print_job";
     ev_date := {| wall := clock w; tzinfo := None |}; ev_payload := o |}.

(** The world after [print_job_changed] on an instance with attributes [o]
    whose [id] is [id]: the send is recorded; it either delivers the event to
    the subscribers of the topic or raises, and then the exception is logged. *)
Definition notified (env : Env) (typ : EventType) (id : Value) (o : Obj) (w : World) : World :=
  let topic := ["print_job"; str env id] in
  let ev := change_event typ o w in
  let w1 := emit (Send topic ev) w in
  match send_fault env topic ev with
  | Some e => emit (LogException "Failed to send websocket message" e) w1
  | None => set_ws_received (ws_received w1 ++ map (λ c, (c, ev)) (subscribers topic w1)) w1
  end.

(** The value of [cost] after the block "Calculate cost if not provided" of
    [create] (the same expression, named). *)
Definition cost_on_create (spool_item : Spool) (weight_used : float) (cost : option float)
    : option float :=
  match cost with
  | None =>
    if (0 <? weight_used)%float then
      let filament_price_per_gram :=
        match filament_price (spool_filament spool_item),
              filament_weight (spool_filament spool_item) with
        | Some p, Some fw => if (0 <? fw)%float then Some (p / fw)%float else None
        | _, _ => None
        end in
      let price_per_gram :=
        match spool_price spool_item, spool_initial_weight spool_item with
        | Some p, Some iw =>
          if (0 <? iw)%float then Some (p / iw)%float else filament_price_per_gram
        | _, _ => filament_price_per_gram
        end in
      match price_per_gram with
      | Some g => Some (weight_used * g)%float
      | None => None
      end
    else None
  | Some c => Some c
  end.

(** The row inserted by [create] in world [w]. *)
Definition created (w : World) (spool_item : Spool)
    (spool_id : Z) (name : string) (weight_used : float)
    (started_at completed_at : option datetime)
    (cost revenue : option float)
    (notes external_reference : option string) : Obj :=
  <["id" := VInt (fresh_id (print_job_table w))]>
    (models.PrintJob spool_id (replace_microsecond_0 {| wall := clock w; tzinfo := None |})
       name weight_used started_at completed_at
       (cost_on_create spool_item weight_used cost) revenue notes external_reference).

(** The world after [get_by_id] loaded the row [row] with key [id] into an
    empty session. *)
Definition loaded (id : Z) (row : Obj) (w : World) : World :=
  set_session [(length (heap w), Persistent id)]
    (set_heap (heap w ++ [<["id" := VInt id]> row]) w).

(** The body of the loop of [update] (the same expression, named), the value
    it assigns, and the attributes after the whole loop. *)
Definition update_body (env : Env) (print_job : nat) (kv : string * Value) : M unit :=
  let '(k, v) := kv in
  match v with
  | VDateTime dt =>
    do v' <- lift (database.utc_timezone_naive env dt);
    setattr print_job k (VDateTime v')
  | _ => setattr print_job k v
  end.

Definition patch_value (env : Env) (v : Value) : Result Value :=
  match v with
  | VDateTime dt =>
    match database.utc_timezone_naive env dt with
    | Ok dt' => Ok (VDateTime dt')
    | Raise e => Raise e
    end
  | _ => Ok v
  end.

Fixpoint apply_items (env : Env) (l : list (string * Value)) (o : Obj) : Result Obj :=
  match l with
  | [] => Ok o
  | (k, v) :: l' =>
    match patch_value env v with
    | Ok v' => apply_items env l' (<[k := v']> o)
    | Raise e => Raise e
    end
  end.

(** The statement of [find] before [OFFSET] and [LIMIT] (the same
    expression, named): the joined, filtered and ordered rows. *)
Definition find_statement (env : Env) (spool_id : option Z) (name : option string)
    (w : World) : list Obj :=
  let stmt := List.filter (database.joins_spool w) (map_to_list (print_job_table w)).*2 in
  let stmt :=
    match spool_id with
    | Some s => List.filter (database.spool_id_is s) stmt
    | None => stmt
    end in
  let stmt :=
    match name with
    | Some n => List.filter (database.name_ilike env n) stmt
    | None => stmt
    end in
  merge_sort database.newest_first stmt.

(** ** The specification's vocabulary *)

(** "price / weight" where the entity "carries both a price and a positive
    weight". *)
Definition unit_price (price weight : option float) : option float :=
  match price, weight with
  | Some p, Some g => if (0 <? g)%float then Some (p / g)%float else None
  | _, _ => None
  end.

(** The derived cost in the specification's words: from the spool's own
    price and initial weight, else from the filament's, else unset. *)
Definition spec_cost (spool_item : Spool) (weight_used : float) : Value :=
  match unit_price (spool_price spool_item) (spool_initial_weight spool_item) with
  | Some u => VFloat (weight_used * u)
  | None =>
    match unit_price (filament_price (spool_filament spool_item))
                     (filament_weight (spool_filament spool_item)) with
    | Some u => VFloat (weight_used * u)
    | None => VNone
    end
  end.

(** Everything of a world except what the notifier writes (the messages
    received and the trace): the result of a mutation is its return value
    together with this. *)
Definition store (w : World)
    : gmap Z Spool * gmap Z Obj * list Obj * list (nat * InstanceState) * Z
      * list (Topic * nat) :=
  (spool_table w, print_job_table w, heap w, session w, clock w, ws_connections w).

Definition outcome {A} (x : Result A * World) := (x.1, store x.2).

(** Two computations that agree on results and stores when started from
    worlds with the same store. *)
Definition sim {A} (m1 m2 : M A) : Prop :=
  ∀ w1 w2, store w1 = store w2 →
    (m1 w1).1 = (m2 w2).1 ∧ store (m1 w1).2 = store (m2 w2).2.

(** The publications recorded in a trace, oldest first. *)
Definition published (tr : list Effect) : list (Topic * PrintJobEvent) :=
  omap (λ e, match e with Send topic ev => Some (topic, ev) | _ => None end) tr.

(** The per-entity topic, as [print_job_changed] and [api.notify] build it. *)
Definition topic_of (env : Env) (id : Z) : Topic := ["print_job"; str env (VInt id)].

(** Connection [c] is registered, and only under [topic]. *)
Definition subscribed_only_to (c : nat) (topic : Topic) (w : World) : Prop :=
  (topic, c) ∈ ws_connections w ∧ ∀ t, (t, c) ∈ ws_connections w → t = topic.

(** What the notifier shows of one change of kind [typ] to job [id] between
    the worlds [w] and [w']: one publication, on the topic of that job; a
    connection subscribed to any other topic, such as the topic of another
    job or the collection-wide topic, receives nothing; a connection
    subscribed to the job's topic receives the event when the send does not
    raise. *)
Definition observed (env : Env) (typ : EventType) (id : Z) (w w' : World) : Prop :=
  (∃ ev, published (trace w') = published (trace w) ++ [(topic_of env id, ev)] ∧
         ev_type ev = typ) ∧
  (∀ c t, t ≠ topic_of env id → subscribed_only_to c t w → received c w' = received c w) ∧
  (∀ j, j ≠ id → topic_of env j ≠ topic_of env id) ∧
  (∀ c, subscribed_only_to c (topic_of env id) w →
        (∀ t e, send_fault env t e = None) →
        ∃ ev more, received c w' = received c w ++ ev :: more ∧ ev_type ev = typ).

(** ** Concrete environments and worlds *)

Module examples.

Definition env_ok : Env :=
  {| local_utcoffset := λ _, 0;
     ilike := λ _ _, true;
     repr_other := λ _, "?"%string;
     send_fault := λ _ _, None |}.

Definition env_broken : Env :=
  {| local_utcoffset := λ _, 0;
     ilike := λ _ _, true;
     repr_other := λ _, "?"%string;
     send_fault := λ _ _, Some (OtherException "connection closed") |}.

(** A spool with [price=20, initial_weight=100]. *)
Definition spool_20_100 : Spool :=
  {| spool_price := Some 20%float;
     spool_initial_weight := Some 100%float;
     spool_filament := {| filament_price := None; filament_weight := None |} |}.

(** 2026-02-15T15:29:00 in microseconds since 0001-01-01. *)
Definition t0 : Z := 63906766140000000.

(** One spool, no print job, one websocket client on topic
    [("print_job", "5")]. *)
Definition w_empty : World :=
  {| spool_table := {[ 1 := spool_20_100 ]};
     print_job_table := ∅;
     heap := [];
     session := [];
     clock := t0;
     ws_connections := [(["print_job"; "5"], 0%nat)];
     ws_received := [];
     trace := [] |}.

Definition job (id : Z) (registered : Z) : Obj :=
  <["id" := VInt id]>
    (models.PrintJob 1 {| wall := registered; tzinfo := None |} "Benchy" 15.5%float
       None None (Some 3.1%float) None None None).

(** The same with the print jobs 5 and 7. *)
Definition w_two : World :=
  {| spool_table := {[ 1 := spool_20_100 ]};
     print_job_table := {[ 5 := job 5 (t0 - 2000000); 7 := job 7 (t0 - 1000000) ]};
     heap := [];
     session := [];
     clock := t0;
     ws_connections := [(["print_job"; "5"], 0%nat)];
     ws_received := [];
     trace := [] |}.

End examples.

(** * Properties *)

(** ** Running the monad *)

Section run.
Context {A B : Type}.

Lemma bind_Ok (m : M A) (k : A → M B) w a w' :
  m w = (Ok a, w') → bind m k w = k a w'.
Proof. intros H. unfold bind. by rewrite H. Qed.

Lemma bind_Raise (m : M A) (k : A → M B) w e w' :
  m w = (Raise e, w') → bind m k w = (Raise e, w').
Proof. intros H. unfold bind. by rewrite H. Qed.

Lemma bind_inv_Ok (m : M A) (k : A → M B) w b w' :
  bind m k w = (Ok b, w') → ∃ a w1, m w = (Ok a, w1) ∧ k a w1 = (Ok b, w').
Proof.
  unfold bind. destruct (m w) as [[a|e] w1]; [eauto | discriminate].
Qed.
End run.

Lemma PrintJob_no_id spool_id registered name weight_used sa ca cost revenue notes ext :
  models.PrintJob spool_id registered name weight_used sa ca cost revenue notes ext !! "id" = None.
Proof. unfold models.PrintJob. simpl. by repeat (rewrite lookup_insert_ne; [|done]). Qed.

Lemma commit_pending (w : World) (r : nat) (o : Obj) :
  session w = [(r, Pending)] → heap w !! r = Some o → o !! "id" = None →
  db_commit w =
    (Ok tt,
     let id := fresh_id (print_job_table w) in
     let o' := <["id" := VInt id]> o in
     emit Commit (set_session [(r, Persistent id)]
       (set_heap (<[r := o']> (heap w)) (set_print_job_table (<[id := o']> (print_job_table w)) w)))).
Proof.
  intros Hs Hh Hid. unfold db_commit. rewrite Hs. simpl. rewrite Hh.
  unfold primary_key. rewrite Hid. reflexivity.
Qed.

Lemma print_job_changed_run env r typ w o id :
  heap w !! r = Some o → o !! "id" = Some id →
  database.print_job_changed env r typ w = (Ok tt, notified env typ id o w).
Proof.
  intros Hh Hid. unfold database.print_job_changed, try_except, notified.
  unfold bind at 1. unfold getattr. rewrite Hh. simpl. rewrite Hid.
  unfold bind at 1. unfold utcnow, gets.
  unfold bind at 1. unfold from_db. rewrite Hh.
  unfold ws_send, change_event. simpl.
  destruct (send_fault env _ _); reflexivity.
Qed.

Lemma create_run env w spool_id spool_item name weight_used started_at completed_at sa ca
    cost revenue notes ext :
  session w = [] →
  spool_table w !! spool_id = Some spool_item →
  database.normalized env started_at = Ok sa →
  database.normalized env completed_at = Ok ca →
  let id := fresh_id (print_job_table w) in
  let o := created w spool_item spool_id name weight_used sa ca cost revenue notes ext in
  database.create env spool_id name weight_used started_at completed_at cost revenue notes ext w
  = (Ok (length (heap w)),
     notified env ADDED (VInt id) o
       (emit Commit (set_session [(length (heap w), Persistent id)]
          (set_heap (heap w ++ [o])
             (set_print_job_table (<[id := o]> (print_job_table w)) w))))).
Proof.
  intros Hs Hsp Hsa Hca id o. unfold database.create.
  erewrite bind_Ok; [| unfold spool.get_by_id; by rewrite Hsp].
  erewrite bind_Ok; [| unfold lift; by rewrite Hsa].
  erewrite bind_Ok; [| unfold lift; by rewrite Hca].
  fold (cost_on_create spool_item weight_used cost).
  erewrite bind_Ok; [| reflexivity].
  erewrite bind_Ok; [| reflexivity].
  erewrite bind_Ok; [| reflexivity].
  erewrite bind_Ok.
  2:{ apply commit_pending with (r := length (heap w)).
      - simpl. by rewrite Hs.
      - simpl. by rewrite lookup_app_r, Nat.sub_diag.
      - apply PrintJob_no_id. }
  erewrite bind_Ok.
  2:{ apply print_job_changed_run with (id := VInt id).
      - simpl. rewrite list_lookup_insert_eq; [done|]. rewrite length_app. simpl. lia.
      - by rewrite lookup_insert_eq. }
  unfold ret. f_equal. 
  f_equal. simpl. unfold emit, set_session, set_heap, set_print_job_table; simpl.
  rewrite insert_app_r_alt, Nat.sub_diag by lia. simpl. reflexivity.
Qed.

Lemma set_heap_id w : set_heap (heap w) w = w.
Proof. by destruct w. Qed.

Lemma update_body_run env r k v w o :
  heap w !! r = Some o →
  update_body env r (k, v) w =
    match patch_value env v with
    | Ok v' => (Ok tt, set_heap (<[r := <[k := v']> o]> (heap w)) w)
    | Raise e => (Raise e, w)
    end.
Proof.
  intros Hh.
  assert (Hset : ∀ v', setattr r k v' w = (Ok tt, set_heap (<[r := <[k := v']> o]> (heap w)) w)).
  { intros v'. unfold setattr, modify. do 2 f_equal.
    apply list_eq. intros i. destruct (decide (i = r)) as [->|Hne].
    - rewrite list_lookup_alter_eq, Hh. rewrite list_lookup_insert_eq; [done|].
      by eapply lookup_lt_Some.
    - by rewrite list_lookup_alter_ne, list_lookup_insert_ne. }
  unfold update_body, patch_value. destruct v; try apply Hset.
  unfold bind, lift. destruct (database.utc_timezone_naive env d); [apply Hset | done].
Qed.

Lemma setattr_loop_run env r l : ∀ w o,
  heap w !! r = Some o →
  match apply_items env l o with
  | Ok o' => for_each l (update_body env r) w = (Ok tt, set_heap (<[r := o']> (heap w)) w)
  | Raise e => ∃ w', for_each l (update_body env r) w = (Raise e, w')
  end.
Proof.
  induction l as [|[k v] l IH]; intros w o Hh; cbn [for_each apply_items].
  - unfold ret. by rewrite list_insert_id, set_heap_id.
  - unfold bind. rewrite (update_body_run _ _ _ _ _ o Hh).
    destruct (patch_value env v) as [v'|e]; [|eauto].
    set (w1 := set_heap _ w).
    assert (Hh1 : heap w1 !! r = Some (<[k:=v']> o)).
    { simpl. rewrite list_lookup_insert_eq; [done|]. by eapply lookup_lt_Some. }
    specialize (IH w1 _ Hh1). destruct (apply_items env l _) as [o'|e]; [|done].
    rewrite IH. subst w1. simpl. unfold set_heap; simpl.
    by rewrite list_insert_insert_eq.
Qed.

Lemma apply_items_lookup env l : ∀ o o',
  NoDup l.*1 → apply_items env l o = Ok o' →
  (∀ k, k ∉ l.*1 → o' !! k = o !! k) ∧
  (∀ k v, (k, v) ∈ l → ∃ v', patch_value env v = Ok v' ∧ o' !! k = Some v').
Proof.
  induction l as [|[k v] l IH]; intros o o' Hnd Happ; simpl in *.
  - injection Happ as <-. split; [done|]. intros k v Hin. by apply elem_of_nil in Hin.
  - destruct (patch_value env v) as [v'|e] eqn:Hp; [|done].
    apply NoDup_cons in Hnd as [Hk Hnd].
    destruct (IH _ _ Hnd Happ) as [IH1 IH2]. split.
    + intros k' Hk'. apply not_elem_of_cons in Hk' as [Hne Hk'].
      rewrite IH1 by done. by rewrite lookup_insert_ne.
    + intros k' v0 Hin. apply elem_of_cons in Hin as [Heq|Hin].
      * injection Heq as -> ->. exists v'. split; [done|].
        rewrite IH1 by done. by rewrite lookup_insert_eq.
      * by apply IH2.
Qed.

Lemma get_by_id_run w id row :
  session w = [] → print_job_table w !! id = Some row →
  database.get_by_id id w = (Ok (length (heap w)), loaded id row w).
Proof.
  intros Hs Ht. unfold database.get_by_id, bind, db_get. rewrite Hs, Ht. simpl.
  reflexivity.
Qed.

Lemma get_by_id_missing w id :
  session w = [] → print_job_table w !! id = None →
  database.get_by_id id w =
    (Raise (ItemNotFoundError ("No print job with ID " +:+ pretty id +:+ " found.")), w).
Proof.
  intros Hs Ht. unfold database.get_by_id, bind, db_get. by rewrite Hs, Ht.
Qed.

Lemma commit_persistent (w : World) (r : nat) (key : Z) (o : Obj) :
  session w = [(r, Persistent key)] → heap w !! r = Some o →
  db_commit w =
    (Ok tt,
     emit Commit (set_session [(r, Persistent (primary_key o key))]
       (set_print_job_table (<[primary_key o key := o]> (delete key (print_job_table w))) w))).
Proof.
  intros Hs Hh. unfold db_commit. rewrite Hs. simpl. rewrite Hh. by destruct w.
Qed.

Lemma commit_deleted (w : World) (r : nat) (key : Z) :
  session w = [(r, Deleted key)] →
  db_commit w =
    (Ok tt, emit Commit (set_session []
              (set_print_job_table (delete key (print_job_table w)) w))).
Proof.
  intros Hs. unfold db_commit. rewrite Hs. simpl. by destruct w.
Qed.

Lemma update_run env w id row data o' idv :
  session w = [] → print_job_table w !! id = Some row →
  apply_items env (map_to_list data) (<["id" := VInt id]> row) = Ok o' →
  o' !! "id" = Some idv →
  let r := length (heap w) in
  let pk := primary_key o' id in
  database.update env id data w
  = (Ok r,
     notified env UPDATED idv o'
       (emit Commit (set_session [(r, Persistent pk)]
          (set_heap (heap w ++ [o'])
             (set_print_job_table (<[pk := o']> (delete id (print_job_table w))) w))))).
Proof.
  intros Hs Ht Happ Hid r pk. unfold database.update.
  erewrite bind_Ok; [| by apply get_by_id_run].
  fold (update_body env (length (heap w))).
  assert (Hh : heap (loaded id row w) !! r = Some (<["id" := VInt id]> row)).
  { simpl. by rewrite lookup_app_r, Nat.sub_diag. }
  pose proof (setattr_loop_run env r (map_to_list data) _ _ Hh) as Hloop.
  rewrite Happ in Hloop.
  erewrite bind_Ok; [| exact Hloop].
  assert (Hins : <[r := o']> (heap w ++ [<["id" := VInt id]> row]) = heap w ++ [o']).
  { unfold r. by rewrite insert_app_r_alt, Nat.sub_diag by lia. }
  erewrite bind_Ok.
  2:{ apply commit_persistent with (r := r) (key := id) (o := o').
      - reflexivity.
      - simpl. rewrite Hins. by rewrite lookup_app_r, Nat.sub_diag. }
  erewrite bind_Ok.
  2:{ apply print_job_changed_run with (id := idv) (o := o'); [|done].
      simpl. rewrite Hins. by rewrite lookup_app_r, Nat.sub_diag. }
  unfold ret. f_equal. f_equal. simpl.
  unfold emit, set_session, set_heap, set_print_job_table; simpl. by rewrite Hins.
Qed.

Lemma delete_run env w id row :
  session w = [] → print_job_table w !! id = Some row →
  database.delete env id w
  = (Ok tt,
     emit Commit (set_session []
       (set_print_job_table (delete id (print_job_table w))
          (notified env DELETED (VInt id) (<["id" := VInt id]> row) (loaded id row w))))).
Proof.
  intros Hs Ht. unfold database.delete.
  erewrite bind_Ok; [| by apply get_by_id_run].
  erewrite bind_Ok.
  2:{ apply print_job_changed_run with (id := VInt id) (o := <["id" := VInt id]> row).
      - simpl. by rewrite lookup_app_r, Nat.sub_diag.
      - by rewrite lookup_insert_eq. }
  set (w2 := notified _ _ _ _ _).
  assert (Hs2 : session w2 = [(length (heap w), Persistent id)]).
  { unfold w2, notified. by destruct (send_fault _ _ _). }
  erewrite bind_Ok; [| reflexivity].
  erewrite commit_deleted with (r := length (heap w)) (key := id).
  2:{ simpl. rewrite Hs2. simpl. by rewrite decide_True. }
  f_equal. unfold w2, notified. by destruct (send_fault _ _ _).
Qed.

Lemma create_inv env w spool_id name weight_used started_at completed_at
    cost revenue notes ext r w' :
  session w = [] →
  database.create env spool_id name weight_used started_at completed_at
    cost revenue notes ext w = (Ok r, w') →
  ∃ spool_item sa ca,
    spool_table w !! spool_id = Some spool_item ∧
    database.normalized env started_at = Ok sa ∧
    database.normalized env completed_at = Ok ca ∧
    r = length (heap w) ∧
    w' = notified env ADDED (VInt (fresh_id (print_job_table w)))
           (created w spool_item spool_id name weight_used sa ca cost revenue notes ext)
           (emit Commit (set_session [(length (heap w), Persistent (fresh_id (print_job_table w)))]
              (set_heap (heap w ++ [created w spool_item spool_id name weight_used sa ca
                                      cost revenue notes ext])
                 (set_print_job_table
                    (<[fresh_id (print_job_table w) :=
                         created w spool_item spool_id name weight_used sa ca
                           cost revenue notes ext]> (print_job_table w)) w)))).
Proof.
  intros Hs Hc.
  destruct (spool_table w !! spool_id) as [spool_item|] eqn:Hsp.
  2:{ unfold database.create in Hc. erewrite bind_Raise in Hc; [done|].
      unfold spool.get_by_id. by rewrite Hsp. }
  destruct (database.normalized env started_at) as [sa|e] eqn:Hsa.
  2:{ unfold database.create in Hc.
      erewrite bind_Ok in Hc; [| unfold spool.get_by_id; by rewrite Hsp].
      erewrite bind_Raise in Hc; [done|]. unfold lift. by rewrite Hsa. }
  destruct (database.normalized env completed_at) as [ca|e] eqn:Hca.
  2:{ unfold database.create in Hc.
      erewrite bind_Ok in Hc; [| unfold spool.get_by_id; by rewrite Hsp].
      erewrite bind_Ok in Hc; [| unfold lift; by rewrite Hsa].
      erewrite bind_Raise in Hc; [done|]. unfold lift. by rewrite Hca. }
  rewrite (create_run env w spool_id spool_item name weight_used started_at completed_at
             sa ca cost revenue notes ext Hs Hsp Hsa Hca) in Hc.
  injection Hc as <- <-. by exists spool_item, sa, ca.
Qed.

(** What [notified] leaves alone. *)
Lemma notified_store env typ id o w :
  spool_table (notified env typ id o w) = spool_table w ∧
  print_job_table (notified env typ id o w) = print_job_table w ∧
  heap (notified env typ id o w) = heap w ∧
  session (notified env typ id o w) = session w.
Proof. unfold notified. by destruct (send_fault env _ _). Qed.

(** After a successful [create] in a fresh session the new row is the
    instance returned, stored under the next primary key. *)
Lemma create_stored env w spool_id name weight_used started_at completed_at
    cost revenue notes ext r w' :
  session w = [] →
  database.create env spool_id name weight_used started_at completed_at
    cost revenue notes ext w = (Ok r, w') →
  ∃ spool_item sa ca,
    spool_table w !! spool_id = Some spool_item ∧
    database.normalized env started_at = Ok sa ∧
    database.normalized env completed_at = Ok ca ∧
    let row := created w spool_item spool_id name weight_used sa ca cost revenue notes ext in
    heap w' !! r = Some row ∧
    print_job_table w' = <[fresh_id (print_job_table w) := row]> (print_job_table w).
Proof.
  intros Hs Hc.
  destruct (create_inv _ _ _ _ _ _ _ _ _ _ _ _ _ Hs Hc)
    as (spool_item & sa & ca & Hsp & Hsa & Hca & -> & ->).
  exists spool_item, sa, ca. repeat split; try done.
  all: match goal with
       | |- context [notified ?e ?t ?i ?o ?w0] =>
         destruct (notified_store e t i o w0) as (_ & Ht & Hh & _)
       end.
  - rewrite Hh. simpl. by rewrite lookup_app_r, Nat.sub_diag.
  - by rewrite Ht.
Qed.

(** ** Creation *)

Lemma created_cost w spool_item spool_id name weight_used sa ca cost revenue notes ext :
  created w spool_item spool_id name weight_used sa ca cost revenue notes ext !! "cost"
  = Some (of_option VFloat (cost_on_create spool_item weight_used cost)).
Proof. unfold created, models.PrintJob. simpl. by simplify_map_eq. Qed.

Lemma created_started_at w spool_item spool_id name weight_used sa ca cost revenue notes ext :
  created w spool_item spool_id name weight_used sa ca cost revenue notes ext !! "started_at"
  = Some (of_option VDateTime sa).
Proof. unfold created, models.PrintJob. simpl. by simplify_map_eq. Qed.

Lemma created_completed_at w spool_item spool_id name weight_used sa ca cost revenue notes ext :
  created w spool_item spool_id name weight_used sa ca cost revenue notes ext !! "completed_at"
  = Some (of_option VDateTime ca).
Proof. unfold created, models.PrintJob. simpl. by simplify_map_eq. Qed.

Lemma cost_on_create_spec spool_item weight_used :
  (0 <? weight_used)%float = true →
  of_option VFloat (cost_on_create spool_item weight_used None) = spec_cost spool_item weight_used.
Proof.
  intros Hw. unfold cost_on_create, spec_cost, unit_price. rewrite Hw.
  destruct spool_item as [p iw [fp fw]]; simpl.
  destruct p as [p|], iw as [iw|]; try destruct (0 <? iw)%float;
    destruct fp as [fp|], fw as [fw|]; try destruct (0 <? fw)%float; reflexivity.
Qed.

(** C1. A create request without an explicit cost and with [weight_used > 0]
    stores [weight_used * (spool.price / spool.initial_weight)] when the
    spool has a price and a positive initial weight, else
    [weight_used * (filament.price / filament.weight)] when the filament has
    a price and a positive weight, else no cost ([spec_cost]); with
    [weight_used = 15.5], [price = 20] and [initial_weight = 100] the stored
    cost is [3.1]. *)
Theorem create_derives_cost env w spool_id name weight_used started_at completed_at
    revenue notes ext r w' :
  session w = [] →
  (0 <? weight_used)%float = true →
  database.create env spool_id name weight_used started_at completed_at
    None revenue notes ext w = (Ok r, w') →
  ∃ spool_item row,
    spool_table w !! spool_id = Some spool_item ∧
    print_job_table w' !! fresh_id (print_job_table w) = Some row ∧
    heap w' !! r = Some row ∧
    row !! "cost" = Some (spec_cost spool_item weight_used) ∧
    (weight_used = 15.5%float →
     spool_price spool_item = Some 20%float →
     spool_initial_weight spool_item = Some 100%float →
     row !! "cost" = Some (VFloat 3.1%float)).
Proof.
  intros Hs Hw Hc.
  destruct (create_stored _ _ _ _ _ _ _ _ _ _ _ _ _ Hs Hc)
    as (spool_item & sa & ca & Hsp & _ & _ & Hh & Ht).
  eexists spool_item, _. split; [done|]. split; [by rewrite Ht, lookup_insert_eq|].
  split; [exact Hh|].
  rewrite created_cost, cost_on_create_spec by done. split; [done|].
  intros -> Hp Hiw. unfold spec_cost, unit_price. rewrite Hp, Hiw. reflexivity.
Qed.

Lemma create_derives_cost_witness :
  let res := database.create examples.env_ok 1 "Benchy" 15.5%float None None
               None None None None examples.w_empty in
  ∃ row,
    print_job_table res.2 !! 1 = Some row ∧
    row !! "cost" = Some (VFloat 3.1%float).
Proof.
  intros res.
  destruct (create_derives_cost examples.env_ok examples.w_empty 1 "Benchy" 15.5%float
              None None None None None 0%nat res.2)
    as (spool_item & row & Hsp & Ht & _ & _ & Hex).
  - reflexivity.
  - reflexivity.
  - vm_compute. reflexivity.
  - exists row. split; [exact Ht|].
    vm_compute in Hsp. injection Hsp as <-. by apply Hex.
Defined.

(** C2. A create request whose [spool_id] names no spool fails with
    [ItemNotFoundError] and leaves the whole world, in particular the table of
    print jobs, as it was. *)
Theorem create_unknown_spool env w spool_id name weight_used started_at completed_at
    cost revenue notes ext :
  spool_table w !! spool_id = None →
  ∃ msg,
    database.create env spool_id name weight_used started_at completed_at
      cost revenue notes ext w = (Raise (ItemNotFoundError msg), w).
Proof.
  intros Hsp. eexists. unfold database.create.
  apply bind_Raise. unfold spool.get_by_id. by rewrite Hsp.
Qed.

Lemma create_unknown_spool_witness :
  spool_table examples.w_empty !! 2 = None ∧
  ∃ msg,
    database.create examples.env_ok 2 "Benchy" 15.5%float None None None None None None
      examples.w_empty = (Raise (ItemNotFoundError msg), examples.w_empty).
Proof.
  split; [reflexivity|].
  apply (create_unknown_spool examples.env_ok examples.w_empty 2). reflexivity.
Defined.

(** ** Update *)

Lemma apply_items_data env (data : gmap string Value) o o' :
  apply_items env (map_to_list data) o = Ok o' →
  (∀ k, data !! k = None → o' !! k = o !! k) ∧
  (∀ k v, data !! k = Some v → ∃ v', patch_value env v = Ok v' ∧ o' !! k = Some v').
Proof.
  intros Happ.
  destruct (apply_items_lookup env (map_to_list data) o o'
              (NoDup_fst_map_to_list data) Happ) as [H1 H2].
  split.
  - intros k Hk. apply H1. intros Hin.
    apply list_elem_of_fmap in Hin as ([k' v] & -> & Hin).
    apply elem_of_map_to_list in Hin. simpl in Hk. congruence.
  - intros k v Hk. apply H2. by apply elem_of_map_to_list.
Qed.

Lemma apply_items_total env l : ∀ o,
  (∀ k v, (k, v) ∈ l → ∃ v', patch_value env v = Ok v') →
  ∃ o', apply_items env l o = Ok o'.
Proof.
  induction l as [|[k v] l IH]; intros o Hall; simpl; [eauto|].
  destruct (Hall k v) as [v' ->]; [left|].
  apply IH. intros k' v0 Hin. apply (Hall k' v0). by right.
Qed.

Lemma update_inv env w id data r w' :
  session w = [] →
  database.update env id data w = (Ok r, w') →
  ∃ row new,
    print_job_table w !! id = Some row ∧
    apply_items env (map_to_list data) (<["id" := VInt id]> row) = Ok new ∧
    r = length (heap w) ∧
    heap w' !! r = Some new ∧
    print_job_table w' = <[primary_key new id := new]> (delete id (print_job_table w)) ∧
    ∃ idv, new !! "id" = Some idv ∧
      w' = notified env UPDATED idv new
             (emit Commit (set_session [(r, Persistent (primary_key new id))]
                (set_heap (heap w ++ [new])
                   (set_print_job_table
                      (<[primary_key new id := new]> (delete id (print_job_table w))) w)))).
Proof.
  intros Hs Hu.
  destruct (print_job_table w !! id) as [row|] eqn:Ht.
  2:{ unfold database.update in Hu. erewrite bind_Raise in Hu; [done|].
      by apply get_by_id_missing. }
  destruct (apply_items env (map_to_list data) (<["id" := VInt id]> row)) as [new|e] eqn:Happ.
  2:{ unfold database.update in Hu.
      erewrite bind_Ok in Hu; [| by apply get_by_id_run].
      fold (update_body env (length (heap w))) in Hu.
      assert (Hh : heap (loaded id row w) !! length (heap w) = Some (<["id" := VInt id]> row)).
      { simpl. by rewrite lookup_app_r, Nat.sub_diag. }
      pose proof (setattr_loop_run env _ (map_to_list data) _ _ Hh) as Hloop.
      rewrite Happ in Hloop. destruct Hloop as [w1 Hloop].
      erewrite bind_Raise in Hu; [done | exact Hloop]. }
  assert (Hid : ∃ idv, new !! "id" = Some idv).
  { destruct (apply_items_data env data _ _ Happ) as [H1 H2].
    destruct (data !! "id") as [v|] eqn:Hd.
    - destruct (H2 _ _ Hd) as (v' & _ & Hv'). eauto.
    - rewrite (H1 _ Hd), lookup_insert_eq. eauto. }
  destruct Hid as [idv Hid].
  rewrite (update_run env w id row data new idv Hs Ht Happ Hid) in Hu.
  injection Hu as <- <-.
  exists row, new. repeat split; try done.
  3: by exists idv.
  all: match goal with
       | |- context [notified ?e ?t ?i ?o ?w0] =>
         destruct (notified_store e t i o w0) as (_ & Htab & Hh & _)
       end.
  - rewrite Hh. simpl. by rewrite lookup_app_r, Nat.sub_diag.
  - by rewrite Htab.
Qed.

Lemma update_total_of_items env w id row data new :
  session w = [] →
  print_job_table w !! id = Some row →
  apply_items env (map_to_list data) (<["id" := VInt id]> row) = Ok new →
  ∃ r w', database.update env id data w = (Ok r, w').
Proof.
  intros Hs Ht Happ.
  assert (Hid : ∃ idv, new !! "id" = Some idv).
  { destruct (apply_items_data env data _ _ Happ) as [H1 H2].
    destruct (data !! "id") as [v|] eqn:Hd.
    - destruct (H2 _ _ Hd) as (v' & _ & Hv'). eauto.
    - rewrite (H1 _ Hd), lookup_insert_eq. eauto. }
  destruct Hid as [idv Hid].
  rewrite (update_run env w id row data new idv Hs Ht Happ Hid). eauto.
Qed.

Lemma update_total env w id row data :
  session w = [] →
  print_job_table w !! id = Some row →
  (∀ k v, data !! k = Some v → ∃ v', patch_value env v = Ok v') →
  ∃ r w', database.update env id data w = (Ok r, w').
Proof.
  intros Hs Ht Hall.
  destruct (apply_items_total env (map_to_list data) (<["id" := VInt id]> row)) as [new Happ].
  { intros k v Hin. apply (Hall k v). by apply elem_of_map_to_list. }
  by eapply update_total_of_items.
Qed.

(** The payload of the API: the fields of the body that the request set. *)
Lemma patch_data_lookup (body : api.PrintJobUpdateParameters.t) k v :
  api.PrintJobUpdateParameters.model_dump_exclude_unset body !! k = Some v ↔
  api.PrintJobUpdateParameters.model_dump body !! k = Some v ∧
  k ∈ api.PrintJobUpdateParameters.model_fields_set body.
Proof.
  unfold api.PrintJobUpdateParameters.model_dump_exclude_unset.
  by rewrite map_lookup_filter_Some.
Qed.

Lemma patch_data_no_id (body : api.PrintJobUpdateParameters.t) :
  api.PrintJobUpdateParameters.model_dump_exclude_unset body !! "id" = None.
Proof.
  destruct (_ !! "id") as [v|] eqn:H; [|done].
  apply patch_data_lookup in H as [H _].
  unfold api.PrintJobUpdateParameters.model_dump in H. simpl in H.
  by simplify_map_eq.
Qed.

Lemma api_update_inv env w id body res w' :
  session w = [] →
  api.update env id body w = (Ok res, w') →
  let patch_data := api.PrintJobUpdateParameters.model_dump_exclude_unset body in
  ∃ row,
    print_job_table w !! id = Some row ∧
    heap w' !! length (heap w) = Some res ∧
    print_job_table w' = <[id := res]> (print_job_table w) ∧
    res !! "id" = Some (VInt id) ∧
    (∀ k, patch_data !! k = None → k ≠ "id" → res !! k = row !! k) ∧
    (∀ k v, patch_data !! k = Some v → ∃ v', patch_value env v = Ok v' ∧ res !! k = Some v').
Proof.
  intros Hs Hu patch_data. unfold api.update in Hu.
  apply bind_inv_Ok in Hu as (r & w1 & Hu & Hfrom).
  destruct (update_inv _ _ _ _ _ _ Hs Hu)
    as (row & new & Ht & Happ & -> & Hh & Htab & _).
  unfold from_db in Hfrom. rewrite Hh in Hfrom. injection Hfrom as <- <-.
  destruct (apply_items_data env _ _ _ Happ) as [H1 H2].
  assert (Hid : new !! "id" = Some (VInt id)).
  { by rewrite (H1 "id" (patch_data_no_id body)), lookup_insert_eq. }
  exists row. split; [exact Ht|]. split; [exact Hh|]. split; [|split; [exact Hid|split]].
  - rewrite Htab. unfold primary_key. rewrite Hid. by rewrite insert_delete_eq.
  - intros k Hk Hne. rewrite (H1 k Hk). by rewrite lookup_insert_ne.
  - exact H2.
Qed.

Lemma api_update_total env w id row body :
  session w = [] →
  print_job_table w !! id = Some row →
  (∀ k v, api.PrintJobUpdateParameters.model_dump_exclude_unset body !! k = Some v →
          ∃ v', patch_value env v = Ok v') →
  ∃ res w', api.update env id body w = (Ok res, w').
Proof.
  intros Hs Ht Hall.
  destruct (update_total env w id row _ Hs Ht Hall) as (r & w1 & Hu).
  destruct (update_inv _ _ _ _ _ _ Hs Hu) as (_ & new & _ & _ & _ & Hh & _).
  exists new, w1. unfold api.update. erewrite bind_Ok; [|exact Hu].
  unfold from_db. by rewrite Hh.
Qed.

(** C3. A successful partial update gives every field of the payload the
    payload's value (a datetime after [utc_timezone_naive]) and leaves every
    other attribute of the record as it was; the record returned is the
    record stored, and no other record changes. *)
Theorem update_changes_exactly_payload env w id body res w' :
  session w = [] →
  api.update env id body w = (Ok res, w') →
  ∃ old,
    print_job_table w !! id = Some old ∧
    print_job_table w' !! id = Some res ∧
    (∀ k v,
       k ∈ api.PrintJobUpdateParameters.model_fields_set body →
       api.PrintJobUpdateParameters.model_dump body !! k = Some v →
       ∃ v', patch_value env v = Ok v' ∧ res !! k = Some v') ∧
    (∀ k,
       k ∉ api.PrintJobUpdateParameters.model_fields_set body →
       k ≠ "id" → res !! k = old !! k) ∧
    res !! "id" = Some (VInt id) ∧
    (∀ j, j ≠ id → print_job_table w' !! j = print_job_table w !! j).
Proof.
  intros Hs Hu.
  destruct (api_update_inv _ _ _ _ _ _ Hs Hu) as (old & Ht & _ & Htab & Hid & Hkeep & Hset).
  exists old. split; [exact Ht|]. split; [by rewrite Htab, lookup_insert_eq|].
  split; [|split; [|split; [exact Hid|]]].
  - intros k v Hk Hv. apply Hset. by apply patch_data_lookup.
  - intros k Hk Hne. apply Hkeep; [|done].
    destruct (_ !! k) as [v|] eqn:Hv; [|done].
    apply patch_data_lookup in Hv as [_ Hin]. by destruct Hk.
  - intros j Hj. rewrite Htab. by rewrite lookup_insert_ne.
Qed.

Lemma update_changes_exactly_payload_witness :
  let body :=
    {| api.PrintJobUpdateParameters.spool_id := None;
       api.PrintJobUpdateParameters.name := Some "Boat"%string;
       api.PrintJobUpdateParameters.weight_used := None;
       api.PrintJobUpdateParameters.started_at := None;
       api.PrintJobUpdateParameters.completed_at := None;
       api.PrintJobUpdateParameters.cost := None;
       api.PrintJobUpdateParameters.revenue := None;
       api.PrintJobUpdateParameters.notes := None;
       api.PrintJobUpdateParameters.external_reference := None;
       api.PrintJobUpdateParameters.model_fields_set := {["name"%string]} |} in
  ∃ res w',
    api.update examples.env_ok 5 body examples.w_two = (Ok res, w') ∧
    print_job_table w' !! 5 = Some res ∧
    res !! "name" = Some (VStr "Boat") ∧
    res !! "weight_used" = Some (VFloat 15.5%float) ∧
    res !! "cost" = Some (VFloat 3.1%float).
Proof.
  intros body.
  assert (Hjob : print_job_table examples.w_two !! 5
                 = Some (examples.job 5 (examples.t0 - 2000000))) by reflexivity.
  destruct (api_update_total examples.env_ok examples.w_two 5 _ body eq_refl Hjob)
    as (res & w' & Hout).
  { intros k v [Hv Hk]%patch_data_lookup.
    unfold body in Hk; cbn in Hk. apply elem_of_singleton in Hk as ->.
    injection Hv as <-. by eexists. }
  exists res, w'. split; [exact Hout|].
  destruct (update_changes_exactly_payload examples.env_ok examples.w_two 5 body res w'
              eq_refl Hout)
    as (old & Hold & Hnew & Hset & Hkeep & _).
  split; [exact Hnew|].
  rewrite Hjob in Hold. injection Hold as <-.
  split; [|split].
  - destruct (Hset "name"%string (VStr "Boat")) as (v' & Hv' & ->).
    + unfold body; cbn. by apply elem_of_singleton.
    + reflexivity.
    + by injection Hv' as <-.
  - rewrite (Hkeep "weight_used"%string).
    + reflexivity.
    + unfold body; cbn. by intros ?%elem_of_singleton.
    + discriminate.
  - rewrite (Hkeep "cost"%string).
    + reflexivity.
    + unfold body; cbn. by intros ?%elem_of_singleton.
    + discriminate.
Defined.

Lemma update_cases env w id data r w' :
  session w = [] →
  database.update env id data w = (Ok r, w') →
  ∃ row new,
    print_job_table w !! id = Some row ∧
    heap w' !! r = Some new ∧
    print_job_table w' !! primary_key new id = Some new ∧
    (data !! "id" = None → primary_key new id = id) ∧
    (∀ k, data !! k = None → new !! k = (<["id" := VInt id]> row) !! k) ∧
    (∀ k v, data !! k = Some v → ∃ v', patch_value env v = Ok v' ∧ new !! k = Some v').
Proof.
  intros Hs Hu.
  destruct (update_inv _ _ _ _ _ _ Hs Hu) as (row & new & Ht & Happ & _ & Hh & Htab & _).
  destruct (apply_items_data env _ _ _ Happ) as [H1 H2].
  exists row, new. split; [exact Ht|]. split; [exact Hh|].
  split; [by rewrite Htab, lookup_insert_eq|]. split; [|by split].
  intros Hid. unfold primary_key. by rewrite (H1 _ Hid), lookup_insert_eq.
Qed.

(** ** Timestamps *)

Lemma utc_timezone_naive_aware env dt off d :
  tzinfo dt = Some off →
  database.utc_timezone_naive env dt = Ok d →
  d = {| wall := wall dt - off; tzinfo := None |}.
Proof.
  intros Htz. unfold database.utc_timezone_naive, astimezone_utc. rewrite Htz.
  destruct (representable _); [|done]. by intros [= <-].
Qed.

(** C9. A timezone-aware [started_at] or [completed_at] given to [create], and
    any timezone-aware datetime given to [update], is stored as the naive
    datetime of the same instant in UTC: the wall clock minus the offset,
    without [tzinfo]. *)
Theorem timestamps_stored_in_utc env w :
  session w = [] →
  (∀ spool_id name weight_used started_at completed_at cost revenue notes ext r w',
     database.create env spool_id name weight_used started_at completed_at
       cost revenue notes ext w = (Ok r, w') →
     ∃ row,
       heap w' !! r = Some row ∧
       print_job_table w' !! fresh_id (print_job_table w) = Some row ∧
       (∀ dt off, started_at = Some dt → tzinfo dt = Some off →
          row !! "started_at" = Some (VDateTime {| wall := wall dt - off; tzinfo := None |})) ∧
       (∀ dt off, completed_at = Some dt → tzinfo dt = Some off →
          row !! "completed_at" = Some (VDateTime {| wall := wall dt - off; tzinfo := None |}))) ∧
  (∀ id data r w',
     database.update env id data w = (Ok r, w') →
     ∃ new,
       heap w' !! r = Some new ∧
       print_job_table w' !! primary_key new id = Some new ∧
       (∀ k dt off, data !! k = Some (VDateTime dt) → tzinfo dt = Some off →
          new !! k = Some (VDateTime {| wall := wall dt - off; tzinfo := None |}))).
Proof.
  intros Hs. split.
  - intros spool_id name weight_used started_at completed_at cost revenue notes ext r w' Hc.
    destruct (create_stored _ _ _ _ _ _ _ _ _ _ _ _ _ Hs Hc)
      as (spool_item & sa & ca & _ & Hsa & Hca & Hh & Ht).
    eexists. split; [exact Hh|]. split; [by rewrite Ht, lookup_insert_eq|]. split.
    + intros dt off -> Htz. rewrite created_started_at.
      unfold database.normalized in Hsa.
      destruct (database.utc_timezone_naive env dt) as [d|] eqn:Hd; [|done].
      injection Hsa as <-. simpl. by rewrite (utc_timezone_naive_aware _ _ _ _ Htz Hd).
    + intros dt off -> Htz. rewrite created_completed_at.
      unfold database.normalized in Hca.
      destruct (database.utc_timezone_naive env dt) as [d|] eqn:Hd; [|done].
      injection Hca as <-. simpl. by rewrite (utc_timezone_naive_aware _ _ _ _ Htz Hd).
  - intros id data r w' Hu.
    destruct (update_cases _ _ _ _ _ _ Hs Hu) as (row & new & _ & Hh & Ht & _ & _ & Hset).
    exists new. split; [exact Hh|]. split; [exact Ht|].
    intros k dt off Hk Htz. destruct (Hset _ _ Hk) as (v' & Hp & ->).
    unfold patch_value in Hp.
    destruct (database.utc_timezone_naive env dt) as [d|] eqn:Hd; [|done].
    injection Hp as <-. by rewrite (utc_timezone_naive_aware _ _ _ _ Htz Hd).
Qed.

Lemma timestamps_stored_in_utc_witness :
  let started := {| wall := examples.t0; tzinfo := Some 3600000000 |} in
  ∃ r w' row,
    database.create examples.env_ok 1 "Benchy" 15.5%float (Some started) None
      None None None None examples.w_empty = (Ok r, w') ∧
    print_job_table w' !! 1 = Some row ∧
    row !! "started_at"
    = Some (VDateTime {| wall := examples.t0 - 3600000000; tzinfo := None |}).
Proof.
  intros started.
  pose proof (create_run examples.env_ok examples.w_empty 1 examples.spool_20_100
                "Benchy" 15.5%float (Some started) None _ _ None None None None
                eq_refl eq_refl eq_refl eq_refl) as Hc.
  destruct (proj1 (timestamps_stored_in_utc examples.env_ok examples.w_empty eq_refl)
              _ _ _ _ _ _ _ _ _ _ _ Hc) as (row & _ & Ht & Hsa & _).
  eexists _, _, row. split; [exact Hc|]. split; [exact Ht|].
  by apply (Hsa started 3600000000).
Defined.

(** ** Cost on update *)

Lemma utc_timezone_naive_raises env dt e :
  database.utc_timezone_naive env dt = Raise e → e = OverflowError.
Proof.
  unfold database.utc_timezone_naive, astimezone_utc.
  destruct (representable _); [done|]. by intros [= <-].
Qed.

Lemma apply_items_raises env l : ∀ o e,
  apply_items env l o = Raise e → e = OverflowError.
Proof.
  induction l as [|[k v] l IH]; intros o e; simpl; [done|].
  destruct (patch_value env v) as [v'|e'] eqn:Hp.
  - apply IH.
  - intros [= <-]. unfold patch_value in Hp. destruct v; try done.
    destruct (database.utc_timezone_naive env d) eqn:Hd; [done|].
    injection Hp as <-. by eapply utc_timezone_naive_raises.
Qed.

Lemma update_raises env w id data e w' :
  session w = [] →
  database.update env id data w = (Raise e, w') →
  (print_job_table w !! id = None ∧
   e = ItemNotFoundError ("No print job with ID " +:+ pretty id +:+ " found."))
  ∨ (is_Some (print_job_table w !! id) ∧ e = OverflowError).
Proof.
  intros Hs Hu.
  destruct (print_job_table w !! id) as [row|] eqn:Ht.
  - right. split; [by eexists|].
    destruct (apply_items env (map_to_list data) (<["id" := VInt id]> row))
      as [new|e'] eqn:Happ.
    + destruct (update_total_of_items env w id row data new Hs Ht Happ) as (r & w1 & Hok).
      by rewrite Hok in Hu.
    + pose proof (apply_items_raises _ _ _ _ Happ) as ->.
      unfold database.update in Hu.
      erewrite bind_Ok in Hu; [| by apply get_by_id_run].
      fold (update_body env (length (heap w))) in Hu.
      assert (Hh : heap (loaded id row w) !! length (heap w) = Some (<["id" := VInt id]> row)).
      { simpl. by rewrite lookup_app_r, Nat.sub_diag. }
      pose proof (setattr_loop_run env _ (map_to_list data) _ _ Hh) as Hloop.
      rewrite Happ in Hloop. destruct Hloop as [w1 Hloop].
      erewrite bind_Raise in Hu; [| exact Hloop]. by injection Hu as <- _.
  - left. split; [done|].
    unfold database.update in Hu.
    erewrite bind_Raise in Hu; [| by apply get_by_id_missing]. by injection Hu as <- _.
Qed.

(** C10. Whenever an update whose payload has no [cost] goes through, the
    stored cost is the cost the record had before, whatever the payload does
    to [weight_used] or [spool_id]: no cost is derived on update. A new
    [spool_id] is stored as it was given; nothing about the table of spools
    is assumed, because [update] never looks a spool up: the only "not
    found" it raises is the one for a print job that does not exist.
    (Whether the commit of such a row is accepted is the database's
    business, so the statement is about the updates that succeed.) *)
Theorem update_keeps_cost env w id data :
  session w = [] →
  data !! "cost" = None →
  (∀ r w',
     database.update env id data w = (Ok r, w') →
     ∃ row new,
       print_job_table w !! id = Some row ∧
       heap w' !! r = Some new ∧
       print_job_table w' !! primary_key new id = Some new ∧
       (data !! "id" = None → primary_key new id = id) ∧
       new !! "cost" = row !! "cost" ∧
       (∀ x, data !! "weight_used" = Some (VFloat x) →
             new !! "weight_used" = Some (VFloat x)) ∧
       (∀ s, data !! "spool_id" = Some (VInt s) → new !! "spool_id" = Some (VInt s))) ∧
  (∀ msg w',
     database.update env id data w = (Raise (ItemNotFoundError msg), w') →
     print_job_table w !! id = None).
Proof.
  intros Hs Hcost. split.
  - intros r w' Hu.
    destruct (update_cases _ _ _ _ _ _ Hs Hu)
      as (row & new & Ht & Hh & Hst & Hpk & Hkeep & Hset).
    exists row, new. split; [exact Ht|]. split; [exact Hh|]. split; [exact Hst|].
    split; [exact Hpk|]. split; [|split].
    + rewrite (Hkeep _ Hcost). by rewrite lookup_insert_ne.
    + intros x Hx. destruct (Hset _ _ Hx) as (v' & Hp & ->). by injection Hp as <-.
    + intros s Hx. destruct (Hset _ _ Hx) as (v' & Hp & ->). by injection Hp as <-.
  - intros msg w' Hu.
    destruct (update_raises _ _ _ _ _ _ Hs Hu) as [[Hnone _]|[_ Hov]]; [exact Hnone|done].
Qed.

Lemma update_keeps_cost_witness :
  ∃ r w' new,
    database.update examples.env_ok 5 {[ "weight_used"%string := VFloat 30%float ]}
      examples.w_two = (Ok r, w') ∧
    print_job_table w' !! 5 = Some new ∧
    new !! "cost" = Some (VFloat 3.1%float) ∧
    new !! "weight_used" = Some (VFloat 30%float).
Proof.
  assert (Hjob : print_job_table examples.w_two !! 5
                 = Some (examples.job 5 (examples.t0 - 2000000))) by reflexivity.
  destruct (update_total examples.env_ok examples.w_two 5 _
              {[ "weight_used"%string := VFloat 30%float ]} eq_refl Hjob)
    as (r & w' & Hu).
  { intros k v [<- <-]%lookup_singleton_Some. by eexists. }
  assert (Hnc : ({[ "weight_used"%string := VFloat 30%float ]} : gmap string Value)
                 !! "cost" = None) by reflexivity.
  destruct (proj1 (update_keeps_cost examples.env_ok examples.w_two 5
                     {[ "weight_used"%string := VFloat 30%float ]} eq_refl Hnc)
              r w' Hu)
    as (row & new & Ht & _ & Hst & Hpk & Hc & Hwt & _).
  rewrite Hjob in Ht. injection Ht as <-.
  exists r, w', new. split; [exact Hu|].
  rewrite Hpk in Hst by reflexivity. split; [exact Hst|].
  split; [by rewrite Hc|]. apply Hwt. reflexivity.
Defined.

(** ** Find *)

Global Instance newest_first_trans : Transitive database.newest_first.
Proof. intros a b c. unfold database.newest_first. lia. Qed.

Global Instance newest_first_total : Total database.newest_first.
Proof. intros a b. unfold database.newest_first. lia. Qed.

Lemma sql_offset_sorted offset rows :
  StronglySorted database.newest_first rows →
  StronglySorted database.newest_first (database.sql_offset offset rows).
Proof.
  intros H. unfold database.sql_offset.
  rewrite <- (take_drop (Z.to_nat offset) rows) in H.
  by apply StronglySorted_app_1_r in H.
Qed.

Lemma sql_limit_sorted limit rows :
  StronglySorted database.newest_first rows →
  StronglySorted database.newest_first (database.sql_limit limit rows).
Proof.
  intros H. unfold database.sql_limit. destruct (limit <? 0); [done|].
  rewrite <- (take_drop (Z.to_nat limit) rows) in H.
  by apply StronglySorted_app_1_l in H.
Qed.

Lemma sql_window_length limit offset (rows : list Obj) :
  (length (database.sql_limit limit (database.sql_offset offset rows)) ≤ length rows)%nat.
Proof.
  unfold database.sql_limit, database.sql_offset.
  destruct (limit <? 0); [|rewrite length_take]; rewrite length_drop; lia.
Qed.

Lemma sql_limit_length limit (rows : list Obj) :
  0 ≤ limit → Z.of_nat (length (database.sql_limit limit rows)) ≤ limit.
Proof.
  intros H. unfold database.sql_limit.
  destruct (limit <? 0) eqn:Hneg; [lia|]. rewrite length_take. lia.
Qed.

(** The matching rows of [find], in the order of the statement. *)
Lemma find_run env spool_id name limit offset w :
  ∃ stmt,
    StronglySorted database.newest_first stmt ∧
    database.find env spool_id name limit offset w
    = (Ok (match limit with
           | Some l => (database.sql_limit l (database.sql_offset offset stmt),
                        Z.of_nat (length stmt))
           | None => (stmt, Z.of_nat (length stmt))
           end), w).
Proof.
  unfold database.find.
  eexists (merge_sort database.newest_first _). split.
  - apply StronglySorted_merge_sort; apply _.
  - by destruct limit.
Qed.

(** C5. The list returned by [find] is ordered by [registered], newest
    first: every record is at least as recent as all the records after it. *)
Theorem find_newest_first env spool_id name limit offset w :
  ∃ rows total,
    database.find env spool_id name limit offset w = (Ok (rows, total), w) ∧
    StronglySorted (λ a b, database.registered_of b ≤ database.registered_of a) rows.
Proof.
  destruct (find_run env spool_id name limit offset w) as (stmt & Hsorted & ->).
  destruct limit as [l|]; eexists _, _; (split; [reflexivity|]).
  - by apply sql_limit_sorted, sql_offset_sorted.
  - exact Hsorted.
Qed.

(** C4, as stated, fails at a negative limit: with [limit = -1] the two print
    jobs of [w_two] are returned, and two records are not "at most -1". *)
Lemma find_negative_limit_counterexample :
  ∃ rows total,
    database.find examples.env_ok None None (Some (-1)) 0 examples.w_two
      = (Ok (rows, total), examples.w_two) ∧
    length rows = 2%nat ∧
    ¬ (Z.of_nat (length rows) ≤ -1).
Proof.
  eexists _, _. split; [reflexivity|].
  assert (H : ∀ n : nat, n = 2%nat → n = 2%nat ∧ ¬ (Z.of_nat n ≤ -1)) by (intros n ->; lia).
  apply H. vm_compute. reflexivity.
Qed.

(** C4, amended. With a limit that is not negative [find] returns at most
    [limit] records; with any limit the total count is at least the number of
    records returned; without a limit the total count is that number. *)
Theorem find_limit_and_total env spool_id name offset w :
  (∀ limit, ∃ rows total,
     database.find env spool_id name (Some limit) offset w = (Ok (rows, total), w) ∧
     (0 ≤ limit → Z.of_nat (length rows) ≤ limit) ∧
     Z.of_nat (length rows) ≤ total) ∧
  (∃ rows total,
     database.find env spool_id name None offset w = (Ok (rows, total), w) ∧
     total = Z.of_nat (length rows)).
Proof.
  split.
  - intros limit.
    destruct (find_run env spool_id name (Some limit) offset w) as (stmt & _ & ->).
    eexists _, _. split; [reflexivity|]. split.
    + apply sql_limit_length.
    + pose proof (sql_window_length limit offset stmt). lia.
  - destruct (find_run env spool_id name None offset w) as (stmt & _ & ->).
    by eexists _, _.
Qed.

Lemma find_limit_and_total_witness :
  ∃ rows total,
    database.find examples.env_ok None None (Some 1) 0 examples.w_two
      = (Ok (rows, total), examples.w_two) ∧
    Z.of_nat (length rows) ≤ 1 ∧
    Z.of_nat (length rows) ≤ total.
Proof.
  destruct (proj1 (find_limit_and_total examples.env_ok None None 0 examples.w_two) 1)
    as (rows & total & Hf & Hlimit & Htotal).
  exists rows, total. split; [exact Hf|]. split; [apply Hlimit; lia | exact Htotal].
Defined.

(** ** Notification failures *)

Lemma sim_bind {A B} (m1 m2 : M A) (k1 k2 : A → M B) :
  sim m1 m2 → (∀ a, sim (k1 a) (k2 a)) → sim (bind m1 k1) (bind m2 k2).
Proof.
  intros Hm Hk w1 w2 Hw. destruct (Hm w1 w2 Hw) as [Hr Hs]. unfold bind.
  destruct (m1 w1) as [[a1|e1] w1'], (m2 w2) as [[a2|e2] w2']; simpl in *;
    try discriminate.
  - injection Hr as <-. by apply Hk.
  - by injection Hr as <-.
Qed.

Lemma sim_ret {A} (a : A) : sim (ret a) (ret a).
Proof. by intros w1 w2 Hw. Qed.

Lemma sim_raise {A} e : sim (raise (A := A) e) (raise e).
Proof. by intros w1 w2 Hw. Qed.

Lemma sim_lift {A} (r : Result A) : sim (lift r) (lift r).
Proof. by intros w1 w2 Hw. Qed.

Ltac same_store :=
  intros [? ? ? ? ? ? ? ?] [? ? ? ? ? ? ? ?] Hw;
  unfold store in Hw; simpl in Hw; simplify_eq.

Lemma sim_spool_get_by_id id : sim (spool.get_by_id id) (spool.get_by_id id).
Proof. same_store. unfold spool.get_by_id. simpl. by destruct (_ !! id). Qed.

Lemma sim_utcnow : sim utcnow utcnow.
Proof. by same_store. Qed.

Lemma sim_new_instance o : sim (new_instance o) (new_instance o).
Proof. by same_store. Qed.

Lemma sim_setattr r k v : sim (setattr r k v) (setattr r k v).
Proof. by same_store. Qed.

Lemma sim_db_add r : sim (db_add r) (db_add r).
Proof. by same_store. Qed.

Lemma sim_db_delete r : sim (db_delete r) (db_delete r).
Proof. by same_store. Qed.

Lemma sim_db_get id : sim (db_get id) (db_get id).
Proof.
  same_store. unfold db_get. simpl.
  destruct (list_find _ _) as [[? [? ?]]|]; [done|]. by destruct (_ !! id).
Qed.

Lemma sim_db_commit : sim db_commit db_commit.
Proof. same_store. unfold db_commit. simpl. by destruct (foldl _ _ _) as [[? ?] ?]. Qed.

Lemma sim_for_each {A} (l : list A) (b1 b2 : A → M unit) :
  (∀ x, sim (b1 x) (b2 x)) → sim (for_each l b1) (for_each l b2).
Proof.
  intros Hb. induction l as [|x l IH]; simpl; [apply sim_ret|].
  apply sim_bind; [apply Hb | by intros _].
Qed.

(** [print_job_changed] returns normally whatever happens inside, and
    touches nothing but the notifier's records. *)
Lemma print_job_changed_swallows env r typ w :
  ∃ w', database.print_job_changed env r typ w = (Ok tt, w') ∧ store w' = store w.
Proof.
  unfold database.print_job_changed, try_except, bind, getattr, utcnow, gets,
    from_db, ws_send, logger_exception, modify.
  destruct (heap w !! r) as [o|] eqn:Hh; simpl; [|by eexists].
  destruct (o !! "id") as [id|]; [|by eexists].
  rewrite Hh. destruct (send_fault env _ _); by eexists.
Qed.

Lemma sim_print_job_changed env1 env2 r typ :
  sim (database.print_job_changed env1 r typ) (database.print_job_changed env2 r typ).
Proof.
  intros w1 w2 Hw.
  destruct (print_job_changed_swallows env1 r typ w1) as (w1' & H1 & Hs1).
  destruct (print_job_changed_swallows env2 r typ w2) as (w2' & H2 & Hs2).
  rewrite H1, H2. simpl. split; [done|]. by rewrite Hs1, Hs2.
Qed.

Lemma sim_get_by_id id : sim (database.get_by_id id) (database.get_by_id id).
Proof.
  unfold database.get_by_id. apply sim_bind; [apply sim_db_get|].
  intros [r|]; [apply sim_ret | apply sim_raise].
Qed.

Lemma sim_outcome {A} (m1 m2 : M A) w : sim m1 m2 → outcome (m1 w) = outcome (m2 w).
Proof. intros H. destruct (H w w eq_refl) as [H1 H2]. unfold outcome. by rewrite H1, H2. Qed.

(** C7. [print_job_changed] never raises, and the outcome of a mutation, its
    return value or exception together with the store it leaves, is the same
    under any two behaviours of the websocket send (delivering or raising). *)
Theorem notification_failure_is_swallowed lo il ro sf1 sf2 w :
  let env1 := {| local_utcoffset := lo; ilike := il; repr_other := ro; send_fault := sf1 |} in
  let env2 := {| local_utcoffset := lo; ilike := il; repr_other := ro; send_fault := sf2 |} in
  (∀ r typ, ∃ w', database.print_job_changed env1 r typ w = (Ok tt, w')) ∧
  (∀ spool_id name weight_used started_at completed_at cost revenue notes ext,
     outcome (database.create env1 spool_id name weight_used started_at completed_at
                cost revenue notes ext w)
     = outcome (database.create env2 spool_id name weight_used started_at completed_at
                  cost revenue notes ext w)) ∧
  (∀ id data,
     outcome (database.update env1 id data w) = outcome (database.update env2 id data w)) ∧
  (∀ id, outcome (database.delete env1 id w) = outcome (database.delete env2 id w)).
Proof.
  intros env1 env2. split; [|split; [|split]].
  - intros r typ. destruct (print_job_changed_swallows env1 r typ w) as (w' & H & _). eauto.
  - intros. apply sim_outcome. unfold database.create.
    apply sim_bind; [apply sim_spool_get_by_id|]. intros spool_item.
    apply sim_bind; [apply sim_lift|]. intros sa.
    apply sim_bind; [apply sim_lift|]. intros ca.
    apply sim_bind; [apply sim_utcnow|]. intros now.
    apply sim_bind; [apply sim_new_instance|]. intros r.
    apply sim_bind; [apply sim_db_add|]. intros _.
    apply sim_bind; [apply sim_db_commit|]. intros _.
    apply sim_bind; [apply sim_print_job_changed|]. intros _.
    apply sim_ret.
  - intros. apply sim_outcome. unfold database.update.
    apply sim_bind; [apply sim_get_by_id|]. intros r.
    apply sim_bind.
    { apply sim_for_each. intros [k v].
      destruct v; try apply sim_setattr.
      apply sim_bind; [apply sim_lift|]. intros v'. apply sim_setattr. }
    intros _.
    apply sim_bind; [apply sim_db_commit|]. intros _.
    apply sim_bind; [apply sim_print_job_changed|]. intros _.
    apply sim_ret.
  - intros. apply sim_outcome. unfold database.delete.
    apply sim_bind; [apply sim_get_by_id|]. intros r.
    apply sim_bind; [apply sim_print_job_changed|]. intros _.
    apply sim_bind; [apply sim_db_delete|]. intros _.
    apply sim_db_commit.
Qed.

(** ** Publication *)

Lemma topic_of_inj env : Inj (=) (=) (topic_of env).
Proof.
  intros i j H. unfold topic_of, str in H. injection H as H.
  by apply (inj (pretty : Z → string)) in H.
Qed.

Lemma trace_notified env typ id o w :
  trace (notified env typ id o w)
  = trace w ++ Send ["print_job"; str env id] (change_event typ o w) ::
      match send_fault env ["print_job"; str env id] (change_event typ o w) with
      | Some e => [LogException "Failed to send websocket message" e]
      | None => []
      end.
Proof.
  unfold notified. destruct (send_fault env _ _); simpl; [|done].
  by rewrite <- app_assoc.
Qed.

Lemma published_app tr1 tr2 : published (tr1 ++ tr2) = published tr1 ++ published tr2.
Proof. apply omap_app. Qed.

Lemma published_commit tr : published (tr ++ [Commit]) = published tr.
Proof. by rewrite published_app, app_nil_r. Qed.

Lemma published_notified env typ id o w :
  published (trace (notified env typ id o w))
  = published (trace w) ++ [(["print_job"; str env id], change_event typ o w)].
Proof.
  rewrite trace_notified, published_app. f_equal.
  by destruct (send_fault env _ _).
Qed.

Lemma deliveries_to c ev (subs : list nat) :
  (filter (λ ce : nat * PrintJobEvent, ce.1 = c) (map (λ c', (c', ev)) subs)).*2
  = map (λ _, ev) (filter (λ c', c' = c) subs).
Proof.
  induction subs as [|c' subs IH]; [done|]. simpl.
  rewrite !filter_cons. simpl. destruct (decide (c' = c)); simpl; [f_equal|]; exact IH.
Qed.

Lemma received_notified env typ id o w c :
  received c (notified env typ id o w)
  = received c w ++
      match send_fault env ["print_job"; str env id] (change_event typ o w) with
      | Some _ => []
      | None => map (λ _, change_event typ o w)
                    (filter (λ c', c' = c) (subscribers ["print_job"; str env id] w))
      end.
Proof.
  unfold notified, received. destruct (send_fault env _ _); simpl.
  - by rewrite app_nil_r.
  - rewrite filter_app, fmap_app. f_equal. apply deliveries_to.
Qed.

Lemma elem_of_subscribers c topic w :
  c ∈ subscribers topic w ↔ (topic, c) ∈ ws_connections w.
Proof.
  unfold subscribers. rewrite list_elem_of_fmap. split.
  - intros ([t c'] & -> & [Ht Hin]%list_elem_of_filter). simpl in *. by subst.
  - intros Hin. exists (topic, c). split; [done|]. by apply list_elem_of_filter.
Qed.

Lemma filter_none {A} (P : A → Prop) `{∀ x, Decision (P x)} (l : list A) :
  (∀ x, x ∈ l → ¬ P x) → filter P l = [].
Proof.
  induction l as [|x l IH]; intros Hl; [done|].
  rewrite filter_cons_False; [|apply Hl; left].
  apply IH. intros y Hy. apply Hl. by right.
Qed.

Lemma filter_some {A} (P : A → Prop) `{∀ x, Decision (P x)} (l : list A) x :
  x ∈ l → P x → ∃ y more, filter P l = y :: more.
Proof.
  intros Hin HP. destruct (filter P l) as [|y more] eqn:Hf; [|eauto].
  by destruct (filter_nil_not_elem_of P l x Hf HP).
Qed.

Lemma observed_notified env typ id o w w0 w' :
  ws_connections w0 = ws_connections w →
  ws_received w0 = ws_received w →
  published (trace w0) = published (trace w) →
  ws_received w' = ws_received (notified env typ (VInt id) o w0) →
  published (trace w') = published (trace (notified env typ (VInt id) o w0)) →
  observed env typ id w w'.
Proof.
  intros Hc Hr Hp Hr' Hp'.
  assert (Hrec : ∀ c, received c w'
            = received c w ++
              match send_fault env (topic_of env id) (change_event typ o w0) with
              | Some _ => []
              | None => map (λ _, change_event typ o w0)
                            (filter (λ c', c' = c) (subscribers (topic_of env id) w))
              end).
  { intros c. transitivity (received c (notified env typ (VInt id) o w0)).
    - unfold received. by rewrite Hr'.
    - rewrite received_notified. unfold received, subscribers. by rewrite Hr, Hc. }
  split; [|split; [|split]].
  - exists (change_event typ o w0). split; [|done].
    by rewrite Hp', published_notified, Hp.
  - intros c t Ht [_ Honly]. rewrite Hrec.
    destruct (send_fault env _ _); [by rewrite app_nil_r|].
    rewrite filter_none; [by rewrite app_nil_r|].
    intros c' Hin ->. apply elem_of_subscribers in Hin. by apply Honly in Hin.
  - intros j Hj Heq. by apply topic_of_inj in Heq.
  - intros c [Hin _] Hok. rewrite Hrec, Hok.
    destruct (filter_some (λ c', c' = c) (subscribers (topic_of env id) w) c)
      as (y & more & ->); [by apply elem_of_subscribers | done |].
    simpl. by eexists _, _.
Qed.

Lemma delete_inv env w id u w' :
  session w = [] →
  database.delete env id w = (Ok u, w') →
  ∃ row,
    print_job_table w !! id = Some row ∧
    w' = emit Commit (set_session []
           (set_print_job_table (delete id (print_job_table w))
              (notified env DELETED (VInt id) (<["id" := VInt id]> row) (loaded id row w)))).
Proof.
  intros Hs Hd.
  destruct (print_job_table w !! id) as [row|] eqn:Ht.
  - rewrite (delete_run env w id row Hs Ht) in Hd. injection Hd as <-. by exists row.
  - unfold database.delete in Hd. erewrite bind_Raise in Hd; [done|].
    by apply get_by_id_missing.
Qed.

(** C6. Every change is published once, on the topic
    [("print_job", str(id))] of the job it concerns: a connection subscribed
    to another topic (another job's, or the collection-wide one) receives
    nothing, and a connection subscribed to the job's topic receives the
    event unless the send raises ([observed]). *)
Theorem changes_published_per_entity env w :
  session w = [] →
  (∀ spool_id name weight_used started_at completed_at cost revenue notes ext r w',
     database.create env spool_id name weight_used started_at completed_at
       cost revenue notes ext w = (Ok r, w') →
     observed env ADDED (fresh_id (print_job_table w)) w w') ∧
  (∀ id data r w',
     data !! "id" = None →
     database.update env id data w = (Ok r, w') →
     observed env UPDATED id w w') ∧
  (∀ id u w',
     database.delete env id w = (Ok u, w') →
     observed env DELETED id w w').
Proof.
  intros Hs. split; [|split].
  - intros spool_id name weight_used started_at completed_at cost revenue notes ext r w' Hc.
    destruct (create_inv _ _ _ _ _ _ _ _ _ _ _ _ _ Hs Hc)
      as (spool_item & sa & ca & _ & _ & _ & _ & ->).
    match goal with
    | |- observed _ _ _ _ (notified ?e ?t (VInt ?i) ?o ?w0) =>
      apply (observed_notified e t i o w w0)
    end; try reflexivity.
    apply published_commit.
  - intros id data r w' Hid Hu.
    destruct (update_inv _ _ _ _ _ _ Hs Hu)
      as (row & new & _ & Happ & _ & _ & _ & idv & Hidv & ->).
    destruct (apply_items_data env _ _ _ Happ) as [H1 _].
    rewrite (H1 _ Hid), lookup_insert_eq in Hidv. injection Hidv as <-.
    match goal with
    | |- observed _ _ _ _ (notified ?e ?t (VInt ?i) ?o ?w0) =>
      apply (observed_notified e t i o w w0)
    end; try reflexivity.
    apply published_commit.
  - intros id u w' Hd.
    destruct (delete_inv _ _ _ _ _ Hs Hd) as (row & _ & ->).
    apply (observed_notified env DELETED id (<["id" := VInt id]> row) w (loaded id row w));
      try reflexivity.
    match goal with
    | |- context [notified ?e ?t ?i ?o ?w0] =>
      transitivity (published (trace (notified e t i o w0) ++ [Commit]))
    end; [reflexivity | apply published_commit].
Qed.

(** [api.notify] makes a connection that was not registered a subscriber of
    the job's topic and of nothing else. *)
Lemma notify_subscribes env c id w :
  (∀ t, (t, c) ∉ ws_connections w) →
  subscribed_only_to c (topic_of env id) (api.notify env c id w).2.
Proof.
  intros Hnew. unfold subscribed_only_to, api.notify, ws_connect, modify. simpl.
  split.
  - apply elem_of_app. right. by apply list_elem_of_singleton.
  - intros t [Hin|Hin]%elem_of_app.
    + by destruct (Hnew t).
    + apply list_elem_of_singleton in Hin. by injection Hin.
Qed.

Lemma changes_published_per_entity_witness :
  ∃ r w7 u w5,
    database.update examples.env_ok 7 {[ "name"%string := VStr "Boat" ]} examples.w_two
      = (Ok r, w7) ∧
    received 0 w7 = [] ∧
    database.delete examples.env_ok 5 examples.w_two = (Ok u, w5) ∧
    ∃ ev more, received 0 w5 = ev :: more ∧ ev_type ev = DELETED.
Proof.
  assert (Hsub : subscribed_only_to 0 (topic_of examples.env_ok 5) examples.w_two).
  { split.
    - by apply list_elem_of_singleton.
    - intros t Hin. apply list_elem_of_singleton in Hin. by injection Hin. }
  destruct (changes_published_per_entity examples.env_ok examples.w_two eq_refl)
    as (_ & Hupdate & Hdelete).
  destruct (update_total examples.env_ok examples.w_two 7
              (examples.job 7 (examples.t0 - 1000000)) {[ "name"%string := VStr "Boat" ]})
    as (r & w7 & Hu).
  { reflexivity. }
  { reflexivity. }
  { intros k v [<- <-]%lookup_singleton_Some. by eexists. }
  pose proof (delete_run examples.env_ok examples.w_two 5
                (examples.job 5 (examples.t0 - 2000000)) eq_refl eq_refl) as Hd.
  eexists r, w7, tt, _. split; [exact Hu|]. split; [|split; [exact Hd|]].
  - assert (Hnoid : ({[ "name"%string := VStr "Boat" ]} : Obj) !! "id" = None)
      by reflexivity.
    destruct (Hupdate 7 _ r w7 Hnoid Hu) as (_ & Hother & Hne & _).
    rewrite (Hother 0%nat (topic_of examples.env_ok 5)); [reflexivity| |exact Hsub].
    by apply Hne.
  - destruct (Hdelete 5 tt _ Hd) as (_ & _ & _ & Hmine).
    destruct (Hmine 0%nat Hsub) as (ev & more & Hrec & Hty); [done|].
    exists ev, more. by split.
Defined.

(** ** Order of commit and publication *)

Lemma create_trace env w spool_id name weight_used started_at completed_at
    cost revenue notes ext r w' :
  session w = [] →
  database.create env spool_id name weight_used started_at completed_at
    cost revenue notes ext w = (Ok r, w') →
  ∃ ev rest,
    trace w' = trace w ++ Commit :: Send (topic_of env (fresh_id (print_job_table w))) ev :: rest ∧
    published rest = [] ∧ Commit ∉ rest.
Proof.
  intros Hs Hc.
  destruct (create_inv _ _ _ _ _ _ _ _ _ _ _ _ _ Hs Hc)
    as (spool_item & sa & ca & _ & _ & _ & _ & ->).
  rewrite trace_notified. simpl. rewrite <- app_assoc. simpl.
  eexists _, _. split; [reflexivity|].
  destruct (send_fault env _ _); split; try done.
  - by intros [=]%list_elem_of_singleton.
  - apply not_elem_of_nil.
Qed.

Lemma update_trace env w id data r w' :
  session w = [] →
  data !! "id" = None →
  database.update env id data w = (Ok r, w') →
  ∃ ev rest,
    trace w' = trace w ++ Commit :: Send (topic_of env id) ev :: rest ∧
    published rest = [] ∧ Commit ∉ rest.
Proof.
  intros Hs Hid Hu.
  destruct (update_inv _ _ _ _ _ _ Hs Hu)
    as (row & new & _ & Happ & _ & _ & _ & idv & Hidv & ->).
  destruct (apply_items_data env _ _ _ Happ) as [H1 _].
  rewrite (H1 _ Hid), lookup_insert_eq in Hidv. injection Hidv as <-.
  rewrite trace_notified. simpl. rewrite <- app_assoc. simpl.
  eexists _, _. split; [reflexivity|].
  destruct (send_fault env _ _); split; try done.
  - by intros [=]%list_elem_of_singleton.
  - apply not_elem_of_nil.
Qed.

Lemma delete_trace env w id u w' :
  session w = [] →
  database.delete env id w = (Ok u, w') →
  ∃ ev rest,
    trace w' = trace w ++ Send (topic_of env id) ev :: (rest ++ [Commit]) ∧
    published rest = [] ∧ (Commit ∉ rest) ∧
    print_job_table w' = delete id (print_job_table w).
Proof.
  intros Hs Hd.
  destruct (delete_inv _ _ _ _ _ Hs Hd) as (row & _ & ->).
  match goal with
  | |- context [notified ?e ?t ?i ?o ?w0] =>
    pose proof (trace_notified e t i o w0) as Htr
  end.
  eexists _, _. split; [|split; [|split]].
  - change (trace (emit Commit ?x)) with (trace x ++ [Commit]).
    change (trace (set_session ?s ?x)) with (trace x).
    change (trace (set_print_job_table ?s ?x)) with (trace x).
    rewrite Htr. rewrite <- app_assoc. reflexivity.
  - by destruct (send_fault env _ _).
  - destruct (send_fault env _ _).
    + by intros [=]%list_elem_of_singleton.
    + apply not_elem_of_nil.
  - reflexivity.
Qed.

(** C8, at the failing input: deleting print job 5 publishes the [DELETED]
    event first, while the row is still in the table, and only then deletes
    and commits; [create] and [update] commit first ([create_trace],
    [update_trace]). *)
Theorem delete_publishes_before_commit :
  ∃ ev w',
    database.delete examples.env_ok 5 examples.w_two = (Ok tt, w') ∧
    trace w' = [Send ["print_job"; "5"] ev; Commit] ∧
    ev_type ev = DELETED ∧
    print_job_table w' !! 5 = None.
Proof.
  pose proof (delete_run examples.env_ok examples.w_two 5
                (examples.job 5 (examples.t0 - 2000000)) eq_refl eq_refl) as Hd.
  eexists _, _. split; [exact Hd|]. split; [reflexivity|]. split; [reflexivity|].
  apply lookup_delete_eq.
Qed.

(** * Further properties of the code *)

(** ** Creation: cost, key, timestamps, columns *)

(** X1. The derivation of the cost fires only without an explicit cost and
    with [weight_used > 0]: an explicit cost is stored as given whatever the
    prices are, and without one a weight that is not positive (zero,
    negative or NaN) leaves the cost unset even when the spool has a price. *)
Theorem create_cost_not_derived env w spool_id name weight_used started_at completed_at
    cost revenue notes ext r w' :
  session w = [] →
  database.create env spool_id name weight_used started_at completed_at
    cost revenue notes ext w = (Ok r, w') →
  ∃ row,
    print_job_table w' !! fresh_id (print_job_table w) = Some row ∧
    (∀ c, cost = Some c → row !! "cost" = Some (VFloat c)) ∧
    (cost = None → (0 <? weight_used)%float = false → row !! "cost" = Some VNone).
Proof.
  intros Hs Hc.
  destruct (create_stored _ _ _ _ _ _ _ _ _ _ _ _ _ Hs Hc)
    as (spool_item & sa & ca & _ & _ & _ & _ & Ht).
  eexists. split; [by rewrite Ht, lookup_insert_eq|].
  rewrite created_cost. split.
  - by intros c ->.
  - intros -> Hw. unfold cost_on_create. by rewrite Hw.
Qed.

Lemma create_cost_not_derived_witness :
  ∃ r w' row,
    database.create examples.env_ok 1 "Benchy" 0%float None None
      None None None None examples.w_empty = (Ok r, w') ∧
    print_job_table w' !! 1 = Some row ∧
    row !! "cost" = Some VNone.
Proof.
  pose proof (create_run examples.env_ok examples.w_empty 1 examples.spool_20_100
                "Benchy" 0%float None None _ _ None None None None
                eq_refl eq_refl eq_refl eq_refl) as Hc.
  destruct (create_cost_not_derived examples.env_ok examples.w_empty
              _ _ _ _ _ _ _ _ _ _ _ eq_refl Hc)
    as (row & Ht & _ & Hnone).
  eexists _, _, row. split; [exact Hc|]. split; [exact Ht|]. by apply Hnone.
Defined.

Lemma fresh_id_above (t : gmap Z Obj) k : is_Some (t !! k) → k < fresh_id t.
Proof.
  unfold fresh_id. revert k.
  apply (map_fold_weak_ind
           (λ acc (m : gmap Z Obj), ∀ k, is_Some (m !! k) → k < 1 + acc)
           (λ k _ acc, Z.max k acc) 0).
  - intros k [x Hx]. by rewrite lookup_empty in Hx.
  - intros i x m acc Hi IH k Hk. destruct (decide (k = i)) as [->|Hne]; [lia|].
    rewrite lookup_insert_ne in Hk by done. specialize (IH k Hk). lia.
Qed.

Lemma fresh_id_fresh (t : gmap Z Obj) : t !! fresh_id t = None.
Proof.
  destruct (t !! fresh_id t) eqn:H; [|done].
  pose proof (fresh_id_above t (fresh_id t) (mk_is_Some _ _ H)). lia.
Qed.

Lemma created_id w spool_item spool_id name weight_used sa ca cost revenue notes ext :
  created w spool_item spool_id name weight_used sa ca cost revenue notes ext !! "id"
  = Some (VInt (fresh_id (print_job_table w))).
Proof. unfold created. by rewrite lookup_insert_eq. Qed.

(** X2. A successful [create] adds exactly one row, under a key that was not
    in use; the row carries that key as its [id] and is the instance
    returned; every other row and the table of spools are unchanged. *)
Theorem create_adds_one_row env w spool_id name weight_used started_at completed_at
    cost revenue notes ext r w' :
  session w = [] →
  database.create env spool_id name weight_used started_at completed_at
    cost revenue notes ext w = (Ok r, w') →
  let id := fresh_id (print_job_table w) in
  print_job_table w !! id = None ∧
  (∃ row, print_job_table w' !! id = Some row ∧ heap w' !! r = Some row ∧
          row !! "id" = Some (VInt id)) ∧
  (∀ j, j ≠ id → print_job_table w' !! j = print_job_table w !! j) ∧
  size (print_job_table w') = S (size (print_job_table w)) ∧
  spool_table w' = spool_table w.
Proof.
  intros Hs Hc id.
  destruct (create_inv _ _ _ _ _ _ _ _ _ _ _ _ _ Hs Hc)
    as (spool_item & sa & ca & _ & _ & _ & _ & Hw').
  destruct (create_stored _ _ _ _ _ _ _ _ _ _ _ _ _ Hs Hc)
    as (spool_item' & sa' & ca' & _ & _ & _ & Hh & Ht).
  split; [apply fresh_id_fresh|].
  split; [|split; [|split]].
  - eexists. split; [by rewrite Ht, lookup_insert_eq|]. split; [exact Hh|].
    apply created_id.
  - intros j Hj. rewrite Ht. by rewrite lookup_insert_ne.
  - rewrite Ht. apply map_size_insert_None, fresh_id_fresh.
  - rewrite Hw'. by destruct (notified_store env ADDED
      (VInt (fresh_id (print_job_table w)))
      (created w spool_item spool_id name weight_used sa ca cost revenue notes ext)
      (emit Commit
         (set_session [(length (heap w), Persistent (fresh_id (print_job_table w)))]
            (set_heap (heap w ++ [created w spool_item spool_id name weight_used sa ca
                                    cost revenue notes ext])
               (set_print_job_table
                  (<[fresh_id (print_job_table w) :=
                       created w spool_item spool_id name weight_used sa ca
                         cost revenue notes ext]> (print_job_table w)) w)))))
      as (-> & _).
Qed.

Lemma create_adds_one_row_witness :
  ∃ r w' row,
    database.create examples.env_ok 1 "Benchy" 15.5%float None None
      None None None None examples.w_two = (Ok r, w') ∧
    print_job_table w' !! 8 = Some row ∧
    row !! "id" = Some (VInt 8) ∧
    print_job_table w' !! 5 = print_job_table examples.w_two !! 5.
Proof.
  pose proof (create_run examples.env_ok examples.w_two 1 examples.spool_20_100
                "Benchy" 15.5%float None None _ _ None None None None
                eq_refl eq_refl eq_refl eq_refl) as Hc.
  destruct (create_adds_one_row examples.env_ok examples.w_two
              _ _ _ _ _ _ _ _ _ _ _ eq_refl Hc)
    as (_ & (row & Ht & _ & Hid) & Hother & _).
  eexists _, _, row. split; [exact Hc|]. split; [exact Ht|]. split; [exact Hid|].
  by apply Hother.
Defined.

Lemma created_registered w spool_item spool_id name weight_used sa ca cost revenue notes ext :
  created w spool_item spool_id name weight_used sa ca cost revenue notes ext !! "registered"
  = Some (VDateTime (replace_microsecond_0 {| wall := clock w; tzinfo := None |})).
Proof. unfold created, models.PrintJob. simpl. by simplify_map_eq. Qed.

(** X3. The [registered] timestamp of a new print job is the clock reading
    cut to whole seconds, as a naive datetime: it has no microseconds and
    lies less than a second before the clock. *)
Theorem create_registered_whole_seconds env w spool_id name weight_used
    started_at completed_at cost revenue notes ext r w' :
  session w = [] →
  database.create env spool_id name weight_used started_at completed_at
    cost revenue notes ext w = (Ok r, w') →
  ∃ row d,
    print_job_table w' !! fresh_id (print_job_table w) = Some row ∧
    row !! "registered" = Some (VDateTime d) ∧
    tzinfo d = None ∧
    wall d mod 1000000 = 0 ∧
    wall d ≤ clock w < wall d + 1000000.
Proof.
  intros Hs Hc.
  destruct (create_stored _ _ _ _ _ _ _ _ _ _ _ _ _ Hs Hc)
    as (spool_item & sa & ca & _ & _ & _ & _ & Ht).
  eexists _, _. split; [by rewrite Ht, lookup_insert_eq|].
  split; [apply created_registered|]. split; [done|]. simpl.
  pose proof (Z.mod_pos_bound (clock w) 1000000 ltac:(lia)).
  split; [|lia].
  by rewrite Zminus_mod_idemp_r, Z.sub_diag.
Qed.

Lemma create_registered_whole_seconds_witness :
  ∃ r w' row,
    database.create examples.env_ok 1 "Benchy" 15.5%float None None None None None None
      (mk_World {[ 1 := examples.spool_20_100 ]} ∅ [] [] (examples.t0 + 250000) [] [] [])
      = (Ok r, w') ∧
    print_job_table w' !! 1 = Some row ∧
    row !! "registered" = Some (VDateTime {| wall := examples.t0; tzinfo := None |}).
Proof.
  set (w := mk_World {[ 1 := examples.spool_20_100 ]} ∅ [] [] (examples.t0 + 250000) [] [] []).
  pose proof (create_run examples.env_ok w 1 examples.spool_20_100
                "Benchy" 15.5%float None None _ _ None None None None
                eq_refl eq_refl eq_refl eq_refl) as Hc.
  destruct (create_registered_whole_seconds examples.env_ok w
              _ _ _ _ _ _ _ _ _ _ _ eq_refl Hc)
    as (row & d & Ht & Hreg & Htz & Hmod & Hle & Hlt).
  eexists _, _, row. split; [exact Hc|]. split; [exact Ht|].
  rewrite Hreg. do 2 f_equal. destruct d as [wd tz]. simpl in *. subst tz. f_equal.
  change (clock w) with (examples.t0 + 250000) in *. unfold examples.t0 in *.
  apply Z.mod_divide in Hmod; [|lia]. destruct Hmod as [q ->]. lia.
Defined.

Lemma normalized_naive env x d :
  database.normalized env x = Ok (Some d) → tzinfo d = None.
Proof.
  unfold database.normalized, database.utc_timezone_naive.
  destruct x as [dt|]; [|done].
  destruct (astimezone_utc _ dt); [|done]. by intros [= <-].
Qed.

(** X4. The row written by [create] fits the table of the migration: it has
    exactly the table's columns, a value of the column's type in each, a
    naive datetime in every datetime column, and [None] only in nullable
    columns. *)
Theorem create_row_fits_table env w spool_id name weight_used
    started_at completed_at cost revenue notes ext r w' :
  session w = [] →
  database.create env spool_id name weight_used started_at completed_at
    cost revenue notes ext w = (Ok r, w') →
  ∃ row,
    print_job_table w' !! fresh_id (print_job_table w) = Some row ∧
    dom row = list_to_set (migration.col_name <$> migration.columns migration.print_job) ∧
    Forall (λ c, ∃ v, row !! migration.col_name c = Some v ∧ migration.fits c v)
           (migration.columns migration.print_job).
Proof.
  intros Hs Hc.
  destruct (create_stored _ _ _ _ _ _ _ _ _ _ _ _ _ Hs Hc)
    as (spool_item & sa & ca & _ & Hsa & Hca & _ & Ht).
  eexists. split; [by rewrite Ht, lookup_insert_eq|].
  assert (Hsa' : ∀ d, sa = Some d → tzinfo d = None).
  { intros d ->. by eapply normalized_naive. }
  assert (Hca' : ∀ d, ca = Some d → tzinfo d = None).
  { intros d ->. by eapply normalized_naive. }
  split.
  - unfold created, models.PrintJob. simpl.
    rewrite !dom_insert_L, dom_empty_L. set_solver.
  - unfold created, models.PrintJob. simpl.
    repeat apply Forall_cons_2; [..|apply Forall_nil_2];
      (eexists; split; [by simplify_map_eq|]); simpl; try done.
    + destruct sa; simpl; [by apply Hsa'|done].
    + destruct ca; simpl; [by apply Hca'|done].
    + by destruct (cost_on_create _ _ _).
    + by destruct revenue.
    + by destruct notes.
    + by destruct ext.
Qed.

Lemma create_row_fits_table_witness :
  ∃ r w' row,
    database.create examples.env_ok 1 "Benchy" 15.5%float None None
      None None None None examples.w_empty = (Ok r, w') ∧
    print_job_table w' !! 1 = Some row ∧
    dom row = list_to_set (migration.col_name <$> migration.columns migration.print_job).
Proof.
  pose proof (create_run examples.env_ok examples.w_empty 1 examples.spool_20_100
                "Benchy" 15.5%float None None _ _ None None None None
                eq_refl eq_refl eq_refl eq_refl) as Hc.
  destruct (create_row_fits_table examples.env_ok examples.w_empty
              _ _ _ _ _ _ _ _ _ _ _ eq_refl Hc)
    as (row & Ht & Hdom & _).
  eexists _, _, row. split; [exact Hc|]. by split.
Defined.

(** ** Reading back, and deleting *)

Lemma get_by_id_cached w r id :
  session w = [(r, Persistent id)] → database.get_by_id id w = (Ok r, w).
Proof.
  intros Hs. unfold database.get_by_id, bind, db_get. rewrite Hs. simpl.
  by rewrite decide_True.
Qed.

Lemma create_session env w spool_id name weight_used started_at completed_at
    cost revenue notes ext r w' :
  session w = [] →
  database.create env spool_id name weight_used started_at completed_at
    cost revenue notes ext w = (Ok r, w') →
  session w' = [(r, Persistent (fresh_id (print_job_table w)))].
Proof.
  intros Hs Hc.
  destruct (create_inv _ _ _ _ _ _ _ _ _ _ _ _ _ Hs Hc)
    as (spool_item & sa & ca & _ & _ & _ & -> & ->).
  match goal with
  | |- context [notified ?e ?t ?i ?o ?w0] =>
    by destruct (notified_store e t i o w0) as (_ & _ & _ & ->)
  end.
Qed.

(** X5. A print job can be read back after [create]: in the same session
    [get] returns the record that was stored, without changing anything, and
    in a later, empty session it returns the same record again. *)
Theorem create_then_get env w spool_id name weight_used started_at completed_at
    cost revenue notes ext r w' :
  session w = [] →
  database.create env spool_id name weight_used started_at completed_at
    cost revenue notes ext w = (Ok r, w') →
  ∃ row,
    print_job_table w' !! fresh_id (print_job_table w) = Some row ∧
    api.get (fresh_id (print_job_table w)) w' = (Ok row, w') ∧
    (api.get (fresh_id (print_job_table w)) (set_session [] w')).1 = Ok row.
Proof.
  intros Hs Hc.
  pose proof (create_session _ _ _ _ _ _ _ _ _ _ _ _ _ Hs Hc) as Hs'.
  destruct (create_stored _ _ _ _ _ _ _ _ _ _ _ _ _ Hs Hc)
    as (spool_item & sa & ca & _ & _ & _ & Hh & Ht).
  eexists. split; [by rewrite Ht, lookup_insert_eq|]. split.
  - unfold api.get. erewrite bind_Ok; [|by apply get_by_id_cached].
    unfold from_db. by rewrite Hh.
  - unfold api.get. erewrite bind_Ok.
    2:{ apply get_by_id_run; [done|]. simpl. by rewrite Ht, lookup_insert_eq. }
    unfold from_db. simpl. rewrite lookup_app_r, Nat.sub_diag by done. simpl.
    rewrite insert_id by apply created_id. reflexivity.
Qed.

Lemma create_then_get_witness :
  ∃ r w' row,
    database.create examples.env_ok 1 "Benchy" 15.5%float None None
      None None None None examples.w_empty = (Ok r, w') ∧
    api.get 1 w' = (Ok row, w') ∧
    row !! "name" = Some (VStr "Benchy").
Proof.
  pose proof (create_run examples.env_ok examples.w_empty 1 examples.spool_20_100
                "Benchy" 15.5%float None None _ _ None None None None
                eq_refl eq_refl eq_refl eq_refl) as Hc.
  destruct (create_then_get examples.env_ok examples.w_empty
              _ _ _ _ _ _ _ _ _ _ _ eq_refl Hc)
    as (row & Ht & Hget & _).
  eexists _, _, row. split; [exact Hc|]. split; [exact Hget|].
  simpl in Ht. rewrite lookup_insert_eq in Ht. by injection Ht as <-.
Defined.

(** X6. Reading, updating or deleting a print job that does not exist fails
    with [ItemNotFoundError] and the message naming the id, and leaves the
    world as it was: nothing is committed and nothing is published. *)
Theorem unknown_print_job_not_found env w id data body :
  session w = [] →
  print_job_table w !! id = None →
  let e := ItemNotFoundError ("No print job with ID " +:+ pretty id +:+ " found.") in
  database.get_by_id id w = (Raise e, w) ∧
  api.get id w = (Raise e, w) ∧
  database.update env id data w = (Raise e, w) ∧
  api.update env id body w = (Raise e, w) ∧
  database.delete env id w = (Raise e, w) ∧
  api.delete env id w = (Raise e, w).
Proof.
  intros Hs Ht e.
  pose proof (get_by_id_missing w id Hs Ht) as Hget.
  assert (Hu : ∀ data, database.update env id data w = (Raise e, w)).
  { intros d. unfold database.update. by apply bind_Raise. }
  assert (Hd : database.delete env id w = (Raise e, w)).
  { unfold database.delete. by apply bind_Raise. }
  repeat split; try done.
  - unfold api.get. by apply bind_Raise.
  - unfold api.update. by apply bind_Raise.
  - unfold api.delete. by apply bind_Raise.
Qed.

Lemma unknown_print_job_not_found_witness :
  database.delete examples.env_ok 6 examples.w_two
  = (Raise (ItemNotFoundError "No print job with ID 6 found."), examples.w_two).
Proof.
  exact (proj1 (proj2 (proj2 (proj2 (proj2
    (unknown_print_job_not_found examples.env_ok examples.w_two 6 ∅
       {| api.PrintJobUpdateParameters.spool_id := None;
          api.PrintJobUpdateParameters.name := None;
          api.PrintJobUpdateParameters.weight_used := None;
          api.PrintJobUpdateParameters.started_at := None;
          api.PrintJobUpdateParameters.completed_at := None;
          api.PrintJobUpdateParameters.cost := None;
          api.PrintJobUpdateParameters.revenue := None;
          api.PrintJobUpdateParameters.notes := None;
          api.PrintJobUpdateParameters.external_reference := None;
          api.PrintJobUpdateParameters.model_fields_set := ∅ |}
       eq_refl eq_refl)))))).
Defined.

(** X7. Deleting an existing print job answers ["Success!"], removes that row
    and no other, leaves the spools alone, detaches the instance from the
    session, and a later [get] of the id fails with [ItemNotFoundError]. *)
Theorem delete_removes_only_that_row env w id row :
  session w = [] →
  print_job_table w !! id = Some row →
  ∃ w',
    api.delete env id w = (Ok "Success!"%string, w') ∧
    print_job_table w' = delete id (print_job_table w) ∧
    (∀ j, j ≠ id → print_job_table w' !! j = print_job_table w !! j) ∧
    S (size (print_job_table w')) = size (print_job_table w) ∧
    spool_table w' = spool_table w ∧
    session w' = [] ∧
    ∃ msg, api.get id w' = (Raise (ItemNotFoundError msg), w').
Proof.
  intros Hs Ht.
  pose proof (delete_run env w id row Hs Ht) as Hd.
  eexists. split; [unfold api.delete; by erewrite bind_Ok|].
  match goal with
  | |- context [notified ?e ?t ?i ?o ?w0] =>
    destruct (notified_store e t i o w0) as (Hsp & Htab & _ & _)
  end.
  assert (Hgone : delete id (print_job_table w) !! id = None) by apply lookup_delete_eq.
  split; [reflexivity|]. split; [|split; [|split; [|split]]].
  - intros j Hj. simpl. by rewrite lookup_delete_ne.
  - simpl. rewrite map_size_delete_Some by done.
    pose proof (map_size_ne_0_lookup_2 (print_job_table w) id (mk_is_Some _ _ Ht)).
    lia.
  - simpl. by rewrite Hsp.
  - reflexivity.
  - eexists. unfold api.get. apply bind_Raise. by apply get_by_id_missing.
Qed.

Lemma delete_removes_only_that_row_witness :
  ∃ w',
    api.delete examples.env_ok 5 examples.w_two = (Ok "Success!"%string, w') ∧
    print_job_table w' !! 5 = None ∧
    print_job_table w' !! 7 = Some (examples.job 7 (examples.t0 - 1000000)).
Proof.
  destruct (delete_removes_only_that_row examples.env_ok examples.w_two 5
              (examples.job 5 (examples.t0 - 2000000)) eq_refl eq_refl)
    as (w' & Hd & Ht & Hother & _).
  exists w'. split; [exact Hd|]. split.
  - rewrite Ht. apply lookup_delete_eq.
  - by rewrite Hother.
Defined.

Lemma delete_run_cached env w r id o idv :
  session w = [(r, Persistent id)] →
  heap w !! r = Some o →
  o !! "id" = Some idv →
  database.delete env id w
  = (Ok tt,
     emit Commit (set_session []
       (set_print_job_table (delete id (print_job_table w))
          (notified env DELETED idv o w)))).
Proof.
  intros Hs Hh Hid. unfold database.delete.
  erewrite bind_Ok; [| by apply get_by_id_cached].
  erewrite bind_Ok; [| by apply print_job_changed_run].
  set (w2 := notified _ _ _ _ _).
  assert (Hs2 : session w2 = [(r, Persistent id)]).
  { unfold w2. by destruct (notified_store env DELETED idv o w) as (_ & _ & _ & ->). }
  erewrite bind_Ok; [| reflexivity].
  erewrite commit_deleted with (r := r) (key := id).
  2:{ simpl. rewrite Hs2. simpl. by rewrite decide_True. }
  f_equal. unfold w2, notified. by destruct (send_fault _ _ _).
Qed.

(** X8. Deleting the print job that was just created, in the same session,
    gives back the table of print jobs as it was before the [create]. *)
Theorem create_then_delete_restores_table env w spool_id name weight_used
    started_at completed_at cost revenue notes ext r w1 :
  session w = [] →
  database.create env spool_id name weight_used started_at completed_at
    cost revenue notes ext w = (Ok r, w1) →
  ∃ w2,
    database.delete env (fresh_id (print_job_table w)) w1 = (Ok tt, w2) ∧
    print_job_table w2 = print_job_table w ∧
    spool_table w2 = spool_table w.
Proof.
  intros Hs Hc.
  pose proof (create_session _ _ _ _ _ _ _ _ _ _ _ _ _ Hs Hc) as Hs1.
  destruct (create_stored _ _ _ _ _ _ _ _ _ _ _ _ _ Hs Hc)
    as (spool_item & sa & ca & _ & _ & _ & Hh & Ht).
  destruct (create_inv _ _ _ _ _ _ _ _ _ _ _ _ _ Hs Hc)
    as (spool_item' & sa' & ca' & _ & _ & _ & _ & Hw1).
  assert (Hsp : spool_table w1 = spool_table w).
  { rewrite Hw1.
    match goal with
    | |- context [notified ?e ?t ?i ?o ?w0] =>
      by destruct (notified_store e t i o w0) as (-> & _)
    end. }
  eexists. split.
  - eapply delete_run_cached; [exact Hs1 | exact Hh | apply created_id].
  - match goal with
    | |- context [notified ?e ?t ?i ?o ?w0] =>
      destruct (notified_store e t i o w0) as (Hsp2 & _)
    end.
    split; [|by rewrite <- Hsp, <- Hsp2].
    simpl. rewrite Ht. apply delete_insert_id, fresh_id_fresh.
Qed.

Lemma create_then_delete_restores_table_witness :
  ∃ r w1 w2,
    database.create examples.env_ok 1 "Benchy" 15.5%float None None
      None None None None examples.w_two = (Ok r, w1) ∧
    database.delete examples.env_ok 8 w1 = (Ok tt, w2) ∧
    print_job_table w2 = print_job_table examples.w_two.
Proof.
  pose proof (create_run examples.env_ok examples.w_two 1 examples.spool_20_100
                "Benchy" 15.5%float None None _ _ None None None None
                eq_refl eq_refl eq_refl eq_refl) as Hc.
  destruct (create_then_delete_restores_table examples.env_ok examples.w_two
              _ _ _ _ _ _ _ _ _ _ _ eq_refl Hc)
    as (w2 & Hd & Ht & _).
  eexists _, _, w2. split; [exact Hc|]. by split.
Defined.

(** ** Update: empty payload, failing payload, immutable attributes *)

(** X9. An update with an empty payload changes no attribute and no other
    row, and still commits and publishes one [UPDATED] event on the job's
    topic. *)
Theorem update_empty_payload env w id row :
  session w = [] →
  print_job_table w !! id = Some row →
  ∃ r w' ev rest,
    database.update env id ∅ w = (Ok r, w') ∧
    print_job_table w' !! id = Some (<["id" := VInt id]> row) ∧
    (∀ j, j ≠ id → print_job_table w' !! j = print_job_table w !! j) ∧
    trace w' = trace w ++ Commit :: Send (topic_of env id) ev :: rest ∧
    ev_type ev = UPDATED ∧
    published rest = [].
Proof.
  intros Hs Ht.
  assert (Happ : apply_items env (map_to_list (∅ : gmap string Value))
                   (<["id" := VInt id]> row) = Ok (<["id" := VInt id]> row)).
  { by rewrite map_to_list_empty. }
  pose proof (update_run env w id row ∅ _ (VInt id) Hs Ht Happ
                (lookup_insert_eq _ _ _)) as Hu.
  assert (Hpk : primary_key (<["id" := VInt id]> row) id = id).
  { unfold primary_key. by rewrite lookup_insert_eq. }
  simpl in Hu. rewrite Hpk in Hu.
  eexists _, _, _, _. split; [exact Hu|].
  match goal with
  | |- context [notified ?e ?t ?i ?o ?w0] =>
    destruct (notified_store e t i o w0) as (_ & Htab & _ & _);
    pose proof (trace_notified e t i o w0) as Htr
  end.
  rewrite Htab, Htr. simpl. split; [by rewrite lookup_insert_eq|].
  split; [|split; [|split]].
  - intros j Hj. by rewrite lookup_insert_ne, lookup_delete_ne.
  - rewrite <- app_assoc. reflexivity.
  - reflexivity.
  - by destruct (send_fault env _ _).
Qed.

Lemma update_empty_payload_witness :
  ∃ r w' ev rest,
    database.update examples.env_ok 5 ∅ examples.w_two = (Ok r, w') ∧
    print_job_table w' !! 5 = Some (examples.job 5 (examples.t0 - 2000000)) ∧
    trace w' = Commit :: Send ["print_job"; "5"] ev :: rest.
Proof.
  destruct (update_empty_payload examples.env_ok examples.w_two 5
              (examples.job 5 (examples.t0 - 2000000)) eq_refl eq_refl)
    as (r & w' & ev & rest & Hu & Ht & _ & Htr & _).
  exists r, w', ev, rest. split; [exact Hu|]. split; [|exact Htr].
  rewrite Ht, insert_id by reflexivity. reflexivity.
Defined.

Lemma apply_items_fails env l : ∀ o k dt e,
  (k, VDateTime dt) ∈ l →
  database.utc_timezone_naive env dt = Raise e →
  ∃ e', apply_items env l o = Raise e'.
Proof.
  induction l as [|[k' v] l IH]; intros o k dt e Hin Hd; [by apply elem_of_nil in Hin|].
  simpl. apply elem_of_cons in Hin as [Heq|Hin].
  - injection Heq as <- <-. simpl. rewrite Hd. eauto.
  - destruct (patch_value env v); [by eapply IH | eauto].
Qed.

(** The loop of [update] touches nothing but the heap. *)
Lemma setattr_loop_frame env r l : ∀ w,
  let w' := (for_each l (update_body env r) w).2 in
  spool_table w' = spool_table w ∧ print_job_table w' = print_job_table w ∧
  session w' = session w ∧ ws_received w' = ws_received w ∧ trace w' = trace w.
Proof.
  induction l as [|[k v] l IH]; intros w; [done|].
  cbn [for_each]. unfold bind.
  assert (Hbody : ∀ w1 x, update_body env r (k, v) w = (x, w1) →
            spool_table w1 = spool_table w ∧ print_job_table w1 = print_job_table w ∧
            session w1 = session w ∧ ws_received w1 = ws_received w ∧ trace w1 = trace w).
  { intros w1 x. unfold update_body, bind, lift, setattr, modify.
    destruct v; try (by intros [= <- <-]).
    destruct (database.utc_timezone_naive env d); by intros [= <- <-]. }
  destruct (update_body env r (k, v) w) as [[[]|e] w1] eqn:Hb.
  - destruct (Hbody _ _ eq_refl) as (H1 & H2 & H3 & H4 & H5).
    rewrite <- H1, <- H2, <- H3, <- H4, <- H5. apply IH.
  - by apply (Hbody _ _ eq_refl).
Qed.

(** X10. An update whose payload holds a datetime that has no representable
    UTC value fails with [OverflowError] before the commit: the table, the
    messages received and the trace are as before, so nothing is stored and
    nothing is published. *)
Theorem update_overflow_commits_nothing env w id row data k dt e :
  session w = [] →
  print_job_table w !! id = Some row →
  data !! k = Some (VDateTime dt) →
  database.utc_timezone_naive env dt = Raise e →
  ∃ w',
    database.update env id data w = (Raise OverflowError, w') ∧
    print_job_table w' = print_job_table w ∧
    ws_received w' = ws_received w ∧
    trace w' = trace w.
Proof.
  intros Hs Ht Hk Hd.
  destruct (apply_items_fails env (map_to_list data) (<["id" := VInt id]> row) k dt e)
    as [e' Happ]; [by apply elem_of_map_to_list | done |].
  pose proof (apply_items_raises _ _ _ _ Happ) as ->.
  assert (Hh : heap (loaded id row w) !! length (heap w) = Some (<["id" := VInt id]> row)).
  { simpl. by rewrite lookup_app_r, Nat.sub_diag. }
  pose proof (setattr_loop_run env _ (map_to_list data) _ _ Hh) as Hloop.
  rewrite Happ in Hloop. destruct Hloop as [w1 Hloop].
  pose proof (setattr_loop_frame env (length (heap w)) (map_to_list data) (loaded id row w))
    as Hframe.
  rewrite Hloop in Hframe. simpl in Hframe. destruct Hframe as (_ & Htab & _ & Hrec & Htr).
  exists w1. split; [|by split].
  unfold database.update. erewrite bind_Ok; [| by apply get_by_id_run].
  fold (update_body env (length (heap w))).
  by erewrite bind_Raise.
Qed.

Lemma update_overflow_commits_nothing_witness :
  ∃ w',
    database.update examples.env_ok 5
      {[ "started_at"%string := VDateTime {| wall := 0; tzinfo := Some 3600000000 |} ]}
      examples.w_two = (Raise OverflowError, w') ∧
    print_job_table w' = print_job_table examples.w_two ∧
    trace w' = [].
Proof.
  destruct (update_overflow_commits_nothing examples.env_ok examples.w_two 5
              (examples.job 5 (examples.t0 - 2000000))
              {[ "started_at"%string := VDateTime {| wall := 0; tzinfo := Some 3600000000 |} ]}
              "started_at" {| wall := 0; tzinfo := Some 3600000000 |} OverflowError)
    as (w' & Hu & Ht & _ & Htr).
  - reflexivity.
  - reflexivity.
  - apply lookup_singleton_eq.
  - reflexivity.
  - exists w'. split; [exact Hu|]. split; [exact Ht | exact Htr].
Defined.

(** ** Normalising timestamps *)

(** The offset [astimezone] uses for a datetime. *)
Lemma utc_timezone_naive_eq env dt :
  database.utc_timezone_naive env dt
  = let off := match tzinfo dt with
               | Some off => off
               | None => local_utcoffset env (wall dt)
               end in
    if representable (wall dt - off)
    then Ok {| wall := wall dt - off; tzinfo := None |}
    else Raise OverflowError.
Proof.
  unfold database.utc_timezone_naive, astimezone_utc. simpl.
  by destruct (representable _).
Qed.

(** X11. [utc_timezone_naive] keeps the instant and forgets the zone: its
    result is always naive and within [datetime]'s range, and two aware
    datetimes that denote the same instant in different zones give the same
    result (or both fail). *)
Theorem utc_timezone_naive_instant env d1 d2 off1 off2 :
  tzinfo d1 = Some off1 →
  tzinfo d2 = Some off2 →
  wall d1 - off1 = wall d2 - off2 →
  database.utc_timezone_naive env d1 = database.utc_timezone_naive env d2 ∧
  (∀ d, database.utc_timezone_naive env d1 = Ok d →
        tzinfo d = None ∧ 0 ≤ wall d < MAX_WALL ∧ wall d = wall d1 - off1).
Proof.
  intros H1 H2 Heq. rewrite !utc_timezone_naive_eq, H1, H2. simpl. rewrite Heq.
  split; [done|]. intros d.
  destruct (representable (wall d2 - off2)) eqn:Hr; [|done].
  intros [= <-]. simpl. split; [done|].
  unfold representable in Hr. apply andb_prop in Hr as [Hlo Hhi].
  apply Z.leb_le in Hlo. apply Z.ltb_lt in Hhi. lia.
Qed.

Lemma utc_timezone_naive_instant_witness :
  database.utc_timezone_naive examples.env_ok
    {| wall := examples.t0; tzinfo := Some 3600000000 |}
  = database.utc_timezone_naive examples.env_ok
      {| wall := examples.t0 - 7200000000; tzinfo := Some (-3600000000) |}.
Proof.
  apply (utc_timezone_naive_instant examples.env_ok
           {| wall := examples.t0; tzinfo := Some 3600000000 |}
           {| wall := examples.t0 - 7200000000; tzinfo := Some (-3600000000) |}
           3600000000 (-3600000000)); reflexivity.
Defined.

(** X12. A naive datetime is read as the server's local time: it is stored
    shifted by the local UTC offset. So a timestamp that is already
    normalised is left as it is by a second normalisation exactly when the
    local offset at that time is zero. *)
Theorem utc_timezone_naive_of_naive env dt d :
  tzinfo dt = None →
  database.utc_timezone_naive env dt = Ok d →
  d = {| wall := wall dt - local_utcoffset env (wall dt); tzinfo := None |} ∧
  (database.utc_timezone_naive env d = Ok d ↔ local_utcoffset env (wall d) = 0).
Proof.
  intros Htz. rewrite utc_timezone_naive_eq, Htz. simpl.
  destruct (representable _) eqn:Hr; [|done]. intros [= <-]. split; [done|].
  rewrite utc_timezone_naive_eq. simpl.
  set (u := wall dt - local_utcoffset env (wall dt)) in *.
  split.
  - destruct (representable (u - local_utcoffset env u)); [|done].
    intros [= H]. lia.
  - intros ->. replace (u - 0) with u by lia. by rewrite Hr.
Qed.

Lemma utc_timezone_naive_of_naive_witness :
  let env := {| local_utcoffset := λ _, 3600000000; ilike := λ _ _, true;
                repr_other := λ _, "?"%string; send_fault := λ _ _, None |} in
  database.utc_timezone_naive env {| wall := examples.t0; tzinfo := None |}
  = Ok {| wall := examples.t0 - 3600000000; tzinfo := None |} ∧
  database.utc_timezone_naive env {| wall := examples.t0 - 3600000000; tzinfo := None |}
  ≠ Ok {| wall := examples.t0 - 3600000000; tzinfo := None |}.
Proof.
  intros env.
  assert (H : database.utc_timezone_naive env {| wall := examples.t0; tzinfo := None |}
              = Ok {| wall := examples.t0 - 3600000000; tzinfo := None |}) by reflexivity.
  split; [exact H|].
  intros Hfix.
  destruct (utc_timezone_naive_of_naive env {| wall := examples.t0; tzinfo := None |}
              _ eq_refl H) as [_ Hiff].
  apply Hiff in Hfix. discriminate Hfix.
Defined.

(** ** Find: what is listed, and pages *)

Lemma find_eq env spool_id name limit offset w :
  database.find env spool_id name limit offset w
  = (Ok (match limit with
         | Some l =>
           (database.sql_limit l (database.sql_offset offset (find_statement env spool_id name w)),
            Z.of_nat (length (find_statement env spool_id name w)))
         | None =>
           (find_statement env spool_id name w,
            Z.of_nat (length (find_statement env spool_id name w)))
         end), w).
Proof. unfold database.find, find_statement. by destruct limit. Qed.

Lemma elem_of_List_filter {A} (f : A → bool) (l : list A) x :
  x ∈ List.filter f l ↔ x ∈ l ∧ f x = true.
Proof. by rewrite !list_elem_of_In, filter_In. Qed.

Lemma joins_spool_true w row :
  database.joins_spool w row = true ↔
  ∃ s sp, row !! "spool_id" = Some (VInt s) ∧ spool_table w !! s = Some sp.
Proof.
  unfold database.joins_spool. split.
  - destruct (row !! "spool_id") as [[]|]; try done.
    intros [sp Hsp]%bool_decide_eq_true. eauto.
  - intros (s & sp & -> & Hsp). apply bool_decide_eq_true. eauto.
Qed.

Lemma spool_id_is_true s row :
  database.spool_id_is s row = true ↔ row !! "spool_id" = Some (VInt s).
Proof.
  unfold database.spool_id_is. split.
  - destruct (row !! "spool_id") as [[]|]; try done.
    by intros ->%Z.eqb_eq.
  - intros ->. apply Z.eqb_refl.
Qed.

Lemma name_ilike_true env n row :
  database.name_ilike env n row = true ↔
  ∃ x, row !! "name" = Some (VStr x) ∧ ilike env x ("%" +:+ n +:+ "%") = true.
Proof.
  unfold database.name_ilike. split.
  - destruct (row !! "name") as [[]|]; try done. eauto.
  - by intros (x & -> & ->).
Qed.

Lemma elem_of_find_statement env spool_id name w row :
  row ∈ find_statement env spool_id name w ↔
  (∃ id, print_job_table w !! id = Some row) ∧
  (∃ s sp, row !! "spool_id" = Some (VInt s) ∧ spool_table w !! s = Some sp) ∧
  (∀ s, spool_id = Some s → row !! "spool_id" = Some (VInt s)) ∧
  (∀ n, name = Some n →
     ∃ x, row !! "name" = Some (VStr x) ∧ ilike env x ("%" +:+ n +:+ "%") = true).
Proof.
  unfold find_statement. rewrite merge_sort_Permutation.
  assert (Hbase : row ∈ List.filter (database.joins_spool w)
                          (map_to_list (print_job_table w)).*2 ↔
                  (∃ id, print_job_table w !! id = Some row) ∧
                  (∃ s sp, row !! "spool_id" = Some (VInt s) ∧ spool_table w !! s = Some sp)).
  { rewrite elem_of_List_filter, joins_spool_true, list_elem_of_fmap.
    split; intros [H1 H2]; (split; [|done]).
    - destruct H1 as ([id row'] & -> & Hin). exists id. by apply elem_of_map_to_list.
    - destruct H1 as [id Hid]. exists (id, row). split; [done|].
      by apply elem_of_map_to_list. }
  destruct spool_id as [s|], name as [n|];
    [do 2 rewrite elem_of_List_filter | rewrite elem_of_List_filter
     | rewrite elem_of_List_filter | idtac];
    rewrite Hbase, ?spool_id_is_true, ?name_ilike_true.
  - split.
    + intros [[[H1 H2] H3] H4]. repeat split; try done.
      * by intros ? [= <-].
      * by intros ? [= <-].
    + intros (H1 & H2 & H3 & H4). repeat split; eauto.
  - split.
    + intros [[H1 H2] H3]. repeat split; try done. by intros ? [= <-].
    + intros (H1 & H2 & H3 & H4). repeat split; eauto.
  - split.
    + intros [[H1 H2] H4]. repeat split; try done. by intros ? [= <-].
    + intros (H1 & H2 & H3 & H4). repeat split; eauto.
  - split.
    + intros [H1 H2]. by repeat split.
    + by intros (H1 & H2 & _).
Qed.

(** X13. Without a limit [find] lists exactly the print jobs of the table
    that reference an existing spool and pass the filters given (the
    [spool_id], the name pattern), whatever the offset is: the offset is
    only used together with a limit. The count is the length of the list. *)
Theorem find_lists_exactly_the_matches env spool_id name offset w :
  ∃ rows,
    database.find env spool_id name None offset w = (Ok (rows, Z.of_nat (length rows)), w) ∧
    ∀ row,
      row ∈ rows ↔
      (∃ id, print_job_table w !! id = Some row) ∧
      (∃ s sp, row !! "spool_id" = Some (VInt s) ∧ spool_table w !! s = Some sp) ∧
      (∀ s, spool_id = Some s → row !! "spool_id" = Some (VInt s)) ∧
      (∀ n, name = Some n →
         ∃ x, row !! "name" = Some (VStr x) ∧ ilike env x ("%" +:+ n +:+ "%") = true).
Proof.
  exists (find_statement env spool_id name w). split; [by rewrite find_eq|].
  intros row. apply elem_of_find_statement.
Qed.

Lemma sql_page_length (rows : list Obj) limit offset :
  0 ≤ limit → 0 ≤ offset →
  Z.of_nat (length (database.sql_limit limit (database.sql_offset offset rows)))
  = Z.min limit (Z.max 0 (Z.of_nat (length rows) - offset)).
Proof.
  intros Hl Ho. unfold database.sql_limit, database.sql_offset.
  destruct (Z.ltb_spec limit 0); [lia|].
  rewrite length_take, length_drop. lia.
Qed.

Lemma sql_page_subseteq (rows : list Obj) limit offset :
  database.sql_limit limit (database.sql_offset offset rows) ⊆ rows.
Proof.
  unfold database.sql_limit, database.sql_offset.
  destruct (limit <? 0).
  - apply subseteq_drop.
  - etrans; [apply subseteq_take | apply subseteq_drop].
Qed.

(** X14. The size of a page: with a limit and an offset that are not
    negative, [find] reports as total the number of rows that match the
    filters, whatever the page asked for, and returns
    [min limit (max 0 (total - offset))] rows, each of them a stored print
    job that matches the filters; so a full page until the rows run out,
    and no row from an offset at or after the total. (Which rows a page
    holds among those registered in the same second is not said: that is
    the order the database gives to ties.) *)
Theorem find_page_size env spool_id name w limit offset :
  0 ≤ limit → 0 ≤ offset →
  let total := Z.of_nat (length (find_statement env spool_id name w)) in
  ∃ page,
    database.find env spool_id name (Some limit) offset w = (Ok (page, total), w) ∧
    Z.of_nat (length page) = Z.min limit (Z.max 0 (total - offset)) ∧
    (total ≤ offset → page = []) ∧
    (∀ row, row ∈ page →
       (∃ id, print_job_table w !! id = Some row) ∧
       (∃ s sp, row !! "spool_id" = Some (VInt s) ∧ spool_table w !! s = Some sp) ∧
       (∀ s, spool_id = Some s → row !! "spool_id" = Some (VInt s)) ∧
       (∀ n, name = Some n →
          ∃ x, row !! "name" = Some (VStr x) ∧ ilike env x ("%" +:+ n +:+ "%") = true)).
Proof.
  intros Hl Ho total. rewrite find_eq. eexists. split; [reflexivity|].
  pose proof (sql_page_length (find_statement env spool_id name w) limit offset Hl Ho)
    as Hlen.
  split; [exact Hlen|split].
  - intros Htotal. apply length_zero_iff_nil. unfold total in Htotal. lia.
  - intros row Hin. apply elem_of_find_statement. by eapply sql_page_subseteq.
Qed.

Lemma find_page_size_witness :
  ∃ page,
    database.find examples.env_ok None None (Some 5) 1 examples.w_two
      = (Ok (page, 2), examples.w_two) ∧
    length page = 1%nat.
Proof.
  destruct (find_page_size examples.env_ok None None examples.w_two 5 1)
    as (page & Hfind & Hlen & _); [lia..|].
  assert (Htotal : Z.of_nat (length (find_statement examples.env_ok None None examples.w_two))
                   = 2).
  { vm_compute. reflexivity. }
  rewrite Htotal in Hfind, Hlen.
  exists page. split; [exact Hfind|]. lia.
Defined.

Lemma created_spool_id w spool_item spool_id name weight_used sa ca cost revenue notes ext :
  created w spool_item spool_id name weight_used sa ca cost revenue notes ext !! "spool_id"
  = Some (VInt spool_id).
Proof. unfold created, models.PrintJob. simpl. by simplify_map_eq. Qed.

(** X15. A print job that was just created is listed by [find], both
    unfiltered and when filtering by its spool. *)
Theorem created_job_is_listed env w spool_id name weight_used started_at completed_at
    cost revenue notes ext r w' :
  session w = [] →
  database.create env spool_id name weight_used started_at completed_at
    cost revenue notes ext w = (Ok r, w') →
  ∃ row rows1 rows2 total1 total2,
    print_job_table w' !! fresh_id (print_job_table w) = Some row ∧
    database.find env None None None 0 w' = (Ok (rows1, total1), w') ∧
    database.find env (Some spool_id) None None 0 w' = (Ok (rows2, total2), w') ∧
    row ∈ rows1 ∧ row ∈ rows2.
Proof.
  intros Hs Hc.
  destruct (create_stored _ _ _ _ _ _ _ _ _ _ _ _ _ Hs Hc)
    as (spool_item & sa & ca & Hsp & _ & _ & _ & Ht).
  destruct (create_inv _ _ _ _ _ _ _ _ _ _ _ _ _ Hs Hc)
    as (spool_item' & sa' & ca' & _ & _ & _ & _ & Hw').
  assert (Hsp' : spool_table w' = spool_table w).
  { rewrite Hw'.
    match goal with
    | |- context [notified ?e ?t ?i ?o ?w0] =>
      by destruct (notified_store e t i o w0) as (-> & _)
    end. }
  rewrite !find_eq.
  eexists _, _, _, _, _. split; [by rewrite Ht, lookup_insert_eq|].
  split; [reflexivity|]. split; [reflexivity|].
  split; apply elem_of_find_statement.
  - split; [exists (fresh_id (print_job_table w)); by rewrite Ht, lookup_insert_eq|].
    split; [|done].
    exists spool_id, spool_item. split; [apply created_spool_id | by rewrite Hsp'].
  - split; [exists (fresh_id (print_job_table w)); by rewrite Ht, lookup_insert_eq|].
    split; [|split; [|done]].
    + exists spool_id, spool_item. split; [apply created_spool_id | by rewrite Hsp'].
    + intros s [= <-]. apply created_spool_id.
Qed.

Lemma created_job_is_listed_witness :
  ∃ r w' row rows total,
    database.create examples.env_ok 1 "Benchy" 15.5%float None None
      None None None None examples.w_two = (Ok r, w') ∧
    print_job_table w' !! 8 = Some row ∧
    database.find examples.env_ok (Some 1) None None 0 w' = (Ok (rows, total), w') ∧
    row ∈ rows.
Proof.
  pose proof (create_run examples.env_ok examples.w_two 1 examples.spool_20_100
                "Benchy" 15.5%float None None _ _ None None None None
                eq_refl eq_refl eq_refl eq_refl) as Hc.
  destruct (created_job_is_listed examples.env_ok examples.w_two
              _ _ _ _ _ _ _ _ _ _ _ eq_refl Hc)
    as (row & rows1 & rows2 & total1 & total2 & Ht & _ & Hf & _ & Hin).
  eexists _, _, row, rows2, total2. split; [exact Hc|]. split; [exact Ht|].
  split; [exact Hf | exact Hin].
Defined.

(** ** What the events carry *)



(** ** PATCH cannot touch the identity of a record *)

Lemma patch_data_no_registered (body : api.PrintJobUpdateParameters.t) :
  api.PrintJobUpdateParameters.model_dump_exclude_unset body !! "registered" = None.
Proof.
  destruct (_ !! "registered") as [v|] eqn:H; [|done].
  apply patch_data_lookup in H as [H _].
  unfold api.PrintJobUpdateParameters.model_dump in H. simpl in H.
  by simplify_map_eq.
Qed.

(** X18. Whatever the body of a PATCH holds and whatever fields it marks as
    set, a successful [api.update] keeps the record under the same key with
    the same [id] and the same [registered] timestamp, and the number of
    print jobs does not change. *)
Theorem patch_keeps_identity env w id body res w' :
  session w = [] →
  api.update env id body w = (Ok res, w') →
  ∃ old,
    print_job_table w !! id = Some old ∧
    print_job_table w' !! id = Some res ∧
    res !! "id" = Some (VInt id) ∧
    res !! "registered" = old !! "registered" ∧
    size (print_job_table w') = size (print_job_table w).
Proof.
  intros Hs Hu.
  destruct (api_update_inv _ _ _ _ _ _ Hs Hu) as (old & Ht & _ & Htab & Hid & Hkeep & _).
  exists old. split; [exact Ht|]. split; [by rewrite Htab, lookup_insert_eq|].
  split; [exact Hid|]. split.
  - apply Hkeep; [apply patch_data_no_registered | done].
  - rewrite Htab. apply map_size_insert_Some. by rewrite Ht.
Qed.

Lemma patch_keeps_identity_witness :
  let body :=
    {| api.PrintJobUpdateParameters.spool_id := None;
       api.PrintJobUpdateParameters.name := None;
       api.PrintJobUpdateParameters.weight_used := Some 30%float;
       api.PrintJobUpdateParameters.started_at := None;
       api.PrintJobUpdateParameters.completed_at := None;
       api.PrintJobUpdateParameters.cost := None;
       api.PrintJobUpdateParameters.revenue := None;
       api.PrintJobUpdateParameters.notes := None;
       api.PrintJobUpdateParameters.external_reference := None;
       api.PrintJobUpdateParameters.model_fields_set := {["weight_used"%string]} |} in
  ∃ res w',
    api.update examples.env_ok 5 body examples.w_two = (Ok res, w') ∧
    res !! "id" = Some (VInt 5) ∧
    res !! "registered"
    = Some (VDateTime {| wall := examples.t0 - 2000000; tzinfo := None |}).
Proof.
  intros body.
  assert (Hjob : print_job_table examples.w_two !! 5
                 = Some (examples.job 5 (examples.t0 - 2000000))) by reflexivity.
  destruct (api_update_total examples.env_ok examples.w_two 5 _ body eq_refl Hjob)
    as (res & w' & Hout).
  { intros k v [Hv Hk]%patch_data_lookup.
    unfold body in Hk; cbn in Hk. apply elem_of_singleton in Hk as ->.
    injection Hv as <-. by eexists. }
  destruct (patch_keeps_identity examples.env_ok examples.w_two 5 body res w' eq_refl Hout)
    as (old & Hold & _ & Hid & Hreg & _).
  exists res, w'. split; [exact Hout|]. split; [exact Hid|].
  rewrite Hreg. rewrite Hjob in Hold. injection Hold as <-. reflexivity.
Defined.

(** ** The migration *)

Lemma upgrade_run (s : migration.Schema) :
  migration.tables s !! "print_job" = None →
  migration.indexes s !! "ix_print_job_id" = None →
  migration.indexes s !! "ix_print_job_spool_id" = None →
  migration.upgrade s
  = Ok {| migration.tables := <["print_job" := migration.print_job]> (migration.tables s);
          migration.indexes :=
            <["ix_print_job_spool_id" :=
                {| migration.ix_table := "print_job"; migration.ix_columns := ["spool_id"];
                   migration.ix_unique := false |}]>
              (<["ix_print_job_id" :=
                   {| migration.ix_table := "print_job"; migration.ix_columns := ["id"];
                      migration.ix_unique := false |}]> (migration.indexes s)) |}.
Proof.
  intros Ht Hi1 Hi2.
  unfold migration.upgrade, migration.create_table, migration.f. rewrite Ht.
  unfold migration.and_then, migration.create_index. cbn [migration.tables migration.indexes].
  rewrite Hi1, lookup_insert_eq.
  replace (forallb (migration.has_column migration.print_job) ["id"]) with true
    by reflexivity.
  cbn [migration.tables migration.indexes].
  rewrite lookup_insert_ne by done. rewrite Hi2, lookup_insert_eq.
  by replace (forallb (migration.has_column migration.print_job) ["spool_id"]) with true
    by reflexivity.
Qed.

(** X19. On a schema where the names are free, [upgrade] succeeds and adds
    the table [print_job] with its two indexes and nothing else, and
    [downgrade] then gives back exactly the schema [upgrade] started from. *)
Theorem upgrade_downgrade_round_trip (s : migration.Schema) :
  migration.tables s !! "print_job" = None →
  migration.indexes s !! "ix_print_job_id" = None →
  migration.indexes s !! "ix_print_job_spool_id" = None →
  ∃ s',
    migration.upgrade s = Ok s' ∧
    migration.tables s' !! "print_job" = Some migration.print_job ∧
    (∀ t, t ≠ "print_job"%string → migration.tables s' !! t = migration.tables s !! t) ∧
    (∀ i ix, migration.indexes s' !! i = Some ix →
       migration.indexes s !! i = Some ix ∨
       (migration.ix_table ix = "print_job"%string ∧ migration.ix_unique ix = false ∧
        (i = "ix_print_job_id"%string ∧ migration.ix_columns ix = ["id"%string] ∨
         i = "ix_print_job_spool_id"%string ∧
         migration.ix_columns ix = ["spool_id"%string]))) ∧
    is_Some (migration.indexes s' !! "ix_print_job_id") ∧
    is_Some (migration.indexes s' !! "ix_print_job_spool_id") ∧
    migration.downgrade s' = Ok s.
Proof.
  intros Ht Hi1 Hi2. eexists. split; [by apply upgrade_run|].
  cbn [migration.tables migration.indexes].
  split; [apply lookup_insert_eq|]. split; [|split; [|split; [|split]]].
  - intros t Hne. by rewrite lookup_insert_ne.
  - intros i ix. rewrite !lookup_insert. repeat case_decide; subst.
    + intros [= <-]. right. naive_solver.
    + intros [= <-]. right. naive_solver.
    + by left.
  - rewrite lookup_insert_ne by done. rewrite lookup_insert_eq. eauto.
  - rewrite lookup_insert_eq. eauto.
  - unfold migration.downgrade, migration.drop_index, migration.drop_table,
      migration.and_then, migration.f.
    cbn [migration.tables migration.indexes].
    rewrite lookup_insert_eq. cbn [migration.tables migration.indexes].
    rewrite delete_insert_id by (by rewrite lookup_insert_ne).
    rewrite lookup_insert_eq. cbn [migration.tables migration.indexes].
    rewrite lookup_insert_eq.
    rewrite !delete_insert_id by done. by destruct s.
Qed.

Lemma upgrade_downgrade_round_trip_witness :
  let s := {| migration.tables := ∅; migration.indexes := ∅ |} in
  ∃ s', migration.upgrade s = Ok s' ∧ migration.downgrade s' = Ok s.
Proof.
  intros s.
  destruct (upgrade_downgrade_round_trip s eq_refl eq_refl eq_refl)
    as (s' & Hup & _ & _ & _ & _ & _ & Hdown).
  by exists s'.
Defined.

(** X20. [upgrade] succeeds exactly when neither the table nor one of the two
    index names exists; it cannot run twice, and on a schema it can run on
    [downgrade] fails: there is nothing to drop yet. *)
Theorem upgrade_runs_once (s : migration.Schema) :
  ((∃ s', migration.upgrade s = Ok s') ↔
   migration.tables s !! "print_job" = None ∧
   migration.indexes s !! "ix_print_job_id" = None ∧
   migration.indexes s !! "ix_print_job_spool_id" = None) ∧
  (∀ s', migration.upgrade s = Ok s' →
     (∃ e, migration.upgrade s' = Raise e) ∧ (∃ e, migration.downgrade s = Raise e)).
Proof.
  assert (Hiff : (∃ s', migration.upgrade s = Ok s') →
                 migration.tables s !! "print_job" = None ∧
                 migration.indexes s !! "ix_print_job_id" = None ∧
                 migration.indexes s !! "ix_print_job_spool_id" = None).
  { intros [s' Hup]. revert Hup.
    unfold migration.upgrade, migration.create_table, migration.f.
    destruct (migration.tables s !! "print_job") eqn:Ht; [done|].
    unfold migration.and_then, migration.create_index.
    cbn [migration.tables migration.indexes].
    destruct (migration.indexes s !! "ix_print_job_id") eqn:Hi1; [done|].
    rewrite lookup_insert_eq.
    replace (forallb (migration.has_column migration.print_job) ["id"]) with true
      by reflexivity.
    cbn [migration.tables migration.indexes].
    rewrite lookup_insert_ne by done.
    by destruct (migration.indexes s !! "ix_print_job_spool_id") eqn:Hi2. }
  split.
  - split; [exact Hiff|]. intros (Ht & Hi1 & Hi2). eexists. by apply upgrade_run.
  - intros s' Hup. destruct (Hiff (ex_intro _ s' Hup)) as (Ht & Hi1 & Hi2).
    rewrite (upgrade_run s Ht Hi1 Hi2) in Hup. injection Hup as <-. split.
    + eexists. unfold migration.upgrade, migration.create_table, migration.and_then.
      cbn [migration.tables migration.indexes]. by rewrite lookup_insert_eq.
    + eexists. unfold migration.downgrade, migration.drop_index, migration.and_then,
        migration.f. by rewrite Hi2.
Qed.

Lemma upgrade_runs_once_witness :
  let s := {| migration.tables := ∅; migration.indexes := ∅ |} in
  ∃ s' e, migration.upgrade s = Ok s' ∧ migration.upgrade s' = Raise e.
Proof.
  intros s.
  destruct (proj2 (proj1 (upgrade_runs_once s)) (conj eq_refl (conj eq_refl eq_refl)))
    as [s' Hup].
  destruct (proj2 (upgrade_runs_once s) s' Hup) as [[e He] _].
  by exists s', e.
Defined.

(** ** A failing send is logged, not raised *)

(** X21. When the websocket send raises, the exception stays inside
    [print_job_changed]: a [create], [update] or [delete] that returns has
    logged the failure exactly once, with the message
    ["Failed to send websocket message"] and the exception raised by the
    send; after a [delete] the record is gone all the same. *)
Theorem send_failure_is_logged env w e :
  session w = [] →
  (∀ topic ev, send_fault env topic ev = Some e) →
  let logged tr :=
    omap (λ x, match x with LogException msg e' => Some (msg, e') | _ => None end) tr in
  (∀ spool_id name weight_used started_at completed_at cost revenue notes ext r w',
     database.create env spool_id name weight_used started_at completed_at
       cost revenue notes ext w = (Ok r, w') →
     logged (trace w')
     = logged (trace w) ++ [("Failed to send websocket message"%string, e)]) ∧
  (∀ id data r w',
     database.update env id data w = (Ok r, w') →
     logged (trace w')
     = logged (trace w) ++ [("Failed to send websocket message"%string, e)]) ∧
  (∀ id u w',
     database.delete env id w = (Ok u, w') →
     logged (trace w')
     = logged (trace w) ++ [("Failed to send websocket message"%string, e)] ∧
     print_job_table w' !! id = None).
Proof.
  intros Hs Hfail logged.
  assert (Hlog : ∀ typ id o w0,
            logged (trace (notified env typ id o w0))
            = logged (trace w0) ++ [("Failed to send websocket message"%string, e)]).
  { intros typ id o w0. unfold notified. rewrite Hfail. simpl.
    unfold logged. rewrite <- app_assoc. by rewrite omap_app. }
  assert (Hcommit : ∀ tr, logged (tr ++ [Commit]) = logged tr).
  { intros tr. unfold logged. by rewrite omap_app, app_nil_r. }
  split; [|split].
  - intros spool_id name weight_used started_at completed_at cost revenue notes ext r w' Hc.
    destruct (create_inv _ _ _ _ _ _ _ _ _ _ _ _ _ Hs Hc)
      as (spool_item & sa & ca & _ & _ & _ & _ & ->).
    rewrite Hlog. simpl. by rewrite Hcommit.
  - intros id data r w' Hu.
    destruct (update_inv _ _ _ _ _ _ Hs Hu)
      as (_ & new & _ & _ & _ & _ & _ & idv & _ & ->).
    rewrite Hlog. simpl. by rewrite Hcommit.
  - intros id u w' Hd.
    destruct (delete_inv _ _ _ _ _ Hs Hd) as (row & _ & ->).
    split; [|apply lookup_delete_eq].
    transitivity (logged (trace (notified env DELETED (VInt id)
                    (<["id" := VInt id]> row) (loaded id row w)) ++ [Commit]));
      [reflexivity|].
    by rewrite Hcommit, Hlog.
Qed.

Lemma send_failure_is_logged_witness :
  ∃ w',
    database.delete examples.env_broken 5 examples.w_two = (Ok tt, w') ∧
    omap (λ x, match x with LogException msg e' => Some (msg, e') | _ => None end) (trace w')
    = [("Failed to send websocket message"%string, OtherException "connection closed")] ∧
    print_job_table w' !! 5 = None.
Proof.
  pose proof (delete_run examples.env_broken examples.w_two 5
                (examples.job 5 (examples.t0 - 2000000)) eq_refl eq_refl) as Hd.
  destruct (proj2 (proj2 (send_failure_is_logged examples.env_broken examples.w_two
                     (OtherException "connection closed") eq_refl (λ _ _, eq_refl)))
              5 tt _ Hd)
    as (Hlog & Hgone).
  eexists. split; [exact Hd|]. split; [exact Hlog | exact Hgone].
Defined.

(** ** The REST layer *)

Lemma created_name w spool_item spool_id name weight_used sa ca cost revenue notes ext :
  created w spool_item spool_id name weight_used sa ca cost revenue notes ext !! "name"
  = Some (VStr name).
Proof. unfold created, models.PrintJob. simpl. by simplify_map_eq. Qed.

Lemma created_notes w spool_item spool_id name weight_used sa ca cost revenue notes ext :
  created w spool_item spool_id name weight_used sa ca cost revenue notes ext !! "notes"
  = Some (of_option VStr notes).
Proof. unfold created, models.PrintJob. simpl. by simplify_map_eq. Qed.

Lemma created_external_reference w spool_item spool_id name weight_used sa ca cost
    revenue notes ext :
  created w spool_item spool_id name weight_used sa ca cost revenue notes ext
    !! "external_reference"
  = Some (of_option VStr ext).
Proof. unfold created, models.PrintJob. simpl. by simplify_map_eq. Qed.

Lemma api_create_inv env w body res w' :
  session w = [] →
  api.create env body w = (Ok res, w') →
  ∃ spool_item sa ca,
    spool_table w !! api.PrintJobParameters.spool_id body = Some spool_item ∧
    res = created w spool_item
            (api.PrintJobParameters.spool_id body) (api.PrintJobParameters.name body)
            (api.PrintJobParameters.weight_used body) sa ca
            (api.PrintJobParameters.cost body) (api.PrintJobParameters.revenue body)
            (api.PrintJobParameters.notes body)
            (api.PrintJobParameters.external_reference body) ∧
    print_job_table w' = <[fresh_id (print_job_table w) := res]> (print_job_table w).
Proof.
  intros Hs Hc. unfold api.create in Hc.
  apply bind_inv_Ok in Hc as (r & w1 & Hc & Hfrom).
  destruct (create_stored _ _ _ _ _ _ _ _ _ _ _ _ _ Hs Hc)
    as (spool_item & sa & ca & Hsp & _ & _ & Hh & Ht).
  unfold from_db in Hfrom. rewrite Hh in Hfrom. injection Hfrom as <- <-.
  by exists spool_item, sa, ca.
Qed.

(** X22. [POST /print-job] answers with the record it stored: the answer is
    the row found under the new key, with that key as [id], the spool asked
    for and the name given. *)
Theorem api_create_returns_stored_record env w body res w' :
  session w = [] →
  api.create env body w = (Ok res, w') →
  print_job_table w' !! fresh_id (print_job_table w) = Some res ∧
  res !! "id" = Some (VInt (fresh_id (print_job_table w))) ∧
  res !! "spool_id" = Some (VInt (api.PrintJobParameters.spool_id body)) ∧
  res !! "name" = Some (VStr (api.PrintJobParameters.name body)) ∧
  is_Some (spool_table w !! api.PrintJobParameters.spool_id body).
Proof.
  intros Hs Hc.
  destruct (api_create_inv _ _ _ _ _ Hs Hc) as (spool_item & sa & ca & Hsp & -> & Ht).
  split; [by rewrite Ht, lookup_insert_eq|].
  split; [apply created_id|]. split; [apply created_spool_id|].
  split; [apply created_name | by rewrite Hsp].
Qed.

Lemma api_create_run env w body spool_item :
  session w = [] →
  spool_table w !! api.PrintJobParameters.spool_id body = Some spool_item →
  api.PrintJobParameters.started_at body = None →
  api.PrintJobParameters.completed_at body = None →
  ∃ res w', api.create env body w = (Ok res, w').
Proof.
  intros Hs Hsp Hsa Hca. unfold api.create. rewrite Hsa, Hca.
  erewrite bind_Ok; [|by eapply create_run].
  unfold from_db.
  match goal with
  | |- context [notified ?e ?t ?i ?o ?w0] =>
    destruct (notified_store e t i o w0) as (_ & _ & Hh & _)
  end.
  rewrite Hh. simpl. rewrite lookup_app_r, Nat.sub_diag by done. simpl. eauto.
Qed.

Lemma api_create_returns_stored_record_witness :
  let body :=
    {| api.PrintJobParameters.spool_id := 1;
       api.PrintJobParameters.name := "Benchy";
       api.PrintJobParameters.weight_used := 15.5%float;
       api.PrintJobParameters.started_at := None;
       api.PrintJobParameters.completed_at := None;
       api.PrintJobParameters.cost := None;
       api.PrintJobParameters.revenue := None;
       api.PrintJobParameters.notes := None;
       api.PrintJobParameters.external_reference := None |} in
  ∃ res w',
    api.create examples.env_ok body examples.w_two = (Ok res, w') ∧
    print_job_table w' !! 8 = Some res ∧
    res !! "id" = Some (VInt 8).
Proof.
  intros body.
  destruct (api_create_run examples.env_ok examples.w_two body examples.spool_20_100
              eq_refl eq_refl eq_refl eq_refl) as (res & w' & Hc).
  destruct (api_create_returns_stored_record examples.env_ok examples.w_two body res w'
              eq_refl Hc) as (Ht & Hid & _).
  exists res, w'. split; [exact Hc|]. split; [exact Ht | exact Hid].
Defined.

(** X23. The length limits of the request body are those of the table: a
    record created from a body that passes validation holds, in every string
    column, a text no longer than the column's declared length. *)
Theorem valid_body_fits_column_lengths env w body res w' :
  session w = [] →
  api.PrintJobParameters.valid body = true →
  api.create env body w = (Ok res, w') →
  print_job_table w' !! fresh_id (print_job_table w) = Some res ∧
  Forall (λ c, ∃ v, res !! migration.col_name c = Some v ∧ migration.within_length c v)
         (migration.columns migration.print_job).
Proof.
  intros Hs Hvalid Hc.
  destruct (api_create_inv _ _ _ _ _ Hs Hc) as (spool_item & sa & ca & Hsp & -> & Ht).
  split; [by rewrite Ht, lookup_insert_eq|].
  unfold api.PrintJobParameters.valid in Hvalid.
  repeat (apply andb_prop in Hvalid as [Hvalid ?]).
  unfold created, models.PrintJob. simpl.
  repeat apply Forall_cons_2; [..|apply Forall_nil_2];
    (eexists; split; [by simplify_map_eq|]); simpl; try done.
  - apply Nat.leb_le in Hvalid. lia.
  - by destruct sa.
  - by destruct ca.
  - by destruct (cost_on_create _ _ _).
  - by destruct (api.PrintJobParameters.revenue body).
  - destruct (api.PrintJobParameters.notes body) as [n|]; simpl in *; [|done].
    match goal with H : (String.length n <=? _)%nat = true |- _ =>
      apply Nat.leb_le in H end. lia.
  - destruct (api.PrintJobParameters.external_reference body) as [x|]; simpl in *; [|done].
    match goal with H : (String.length x <=? _)%nat = true |- _ =>
      apply Nat.leb_le in H end. lia.
Qed.

Lemma valid_body_fits_column_lengths_witness :
  let body :=
    {| api.PrintJobParameters.spool_id := 1;
       api.PrintJobParameters.name := "Benchy";
       api.PrintJobParameters.weight_used := 15.5%float;
       api.PrintJobParameters.started_at := None;
       api.PrintJobParameters.completed_at := None;
       api.PrintJobParameters.cost := None;
       api.PrintJobParameters.revenue := None;
       api.PrintJobParameters.notes := Some "first layer ok"%string;
       api.PrintJobParameters.external_reference := None |} in
  ∃ res w',
    api.create examples.env_ok body examples.w_two = (Ok res, w') ∧
    print_job_table w' !! 8 = Some res.
Proof.
  intros body.
  destruct (api_create_run examples.env_ok examples.w_two body examples.spool_20_100
              eq_refl eq_refl eq_refl eq_refl) as (res & w' & Hc).
  destruct (valid_body_fits_column_lengths examples.env_ok examples.w_two body res w'
              eq_refl eq_refl Hc) as (Ht & _).
  exists res, w'. split; [exact Hc | exact Ht].
Defined.

Lemma exclude_none_lookup (o : Obj) k v :
  api.exclude_none o !! k = Some v ↔ o !! k = Some v ∧ v ≠ VNone.
Proof. unfold api.exclude_none. by rewrite map_lookup_filter_Some. Qed.

(** X24. [GET /print-job] answers with one item per record [find] returns,
    in the same order, each without its [None] attributes and otherwise as
    stored; the header [x-total-count] is the decimal number of all matching
    print jobs, the same for every limit and offset. *)
Theorem api_find_response env spool_id name limit offset w :
  ∃ rows total resp,
    database.find env spool_id name limit offset w = (Ok (rows, total), w) ∧
    api.find env spool_id name limit offset w = (Ok resp, w) ∧
    api.headers resp
    = [("x-total-count"%string,
        pretty (Z.of_nat (length (find_statement env spool_id name w))))] ∧
    length (api.content resp) = length rows ∧
    (∀ i item, api.content resp !! i = Some item →
       ∃ row, rows !! i = Some row ∧
         ∀ k v, item !! k = Some v ↔ row !! k = Some v ∧ v ≠ VNone).
Proof.
  unfold api.find, bind. rewrite !find_eq.
  destruct limit as [l|]; eexists _, _, _; (split; [reflexivity|]);
    (split; [reflexivity|]); simpl; (split; [reflexivity|]).
  all: split; [by rewrite length_fmap|].
  all: intros i item Hi; rewrite list_lookup_fmap in Hi.
  all: match type of Hi with
       | _ <$> ?x = _ => destruct x as [row|] eqn:Hrow; [|done]
       end.
  all: injection Hi as <-; exists row; split; [done|].
  all: intros k v; apply exclude_none_lookup.
Qed.
